(** * LocalJob: the job runner of the task engine

    A shallow embedding of [LocalJob] (package [tasks]): the construction of
    the playbook command line and of the extra-variables payload, the
    preparation phase with its repository synchronisation, and the two public
    operations [Run] and [Kill].

    The job talks to collaborators that are not part of the package (the log
    sink, the file system, the git client, the application runner, the key
    store, the [encoding/json] library).  Their answers are taken from an
    oracle that sees the whole history of interactions so far, and every
    interaction is recorded in a trace, so that statements such as "clone is
    invoked exactly once" are statements about the trace. *)

From Stdlib Require Import ZArith String Ascii List Lia.
From stdpp Require Import base option list gmap strings pretty sorting.

Set Warnings "-register-all".
Local Open Scope string_scope.
Local Open Scope Z_scope.
Local Open Scope list_scope.

(** ** Go values used by the package *)

(** A Go [error]: its [Error()] text and whether [os.IsNotExist] holds of it. *)
Record error : Type := mkError {
  Error : string;
  IsNotExist : bool
}.

(** [fmt.Errorf] with a constant format. *)
Definition Errorf (msg : string) : error := mkError msg false.

(** [strconv.Itoa]: the decimal rendering of an [int]. *)
Definition Itoa (n : Z) : string := pretty n.

(** The dynamic values that [encoding/json] stores in a
    [map[string]interface{}] and that the job puts there itself: [nil],
    booleans, numbers, strings, slices and string-keyed maps. *)
Inductive JValue : Type :=
  | JNull
  | JBool (b : bool)
  | JInt (n : Z)
  | JString (s : string)
  | JArray (xs : list JValue)
  | JObject (m : gmap string JValue).

(** A [*string] stored in an [interface{}]: [nil] or the string pointed to. *)
Definition JStringPtr (p : option string) : JValue :=
  match p with
  | Some s => JString s
  | None => JNull
  end.

(** The two ways in which a call ends: it returns, or it panics with a
    message. *)
Inductive Outcome (A : Type) : Type :=
  | Returned (a : A)
  | Panicked (msg : string).
Arguments Returned {A} a.
Arguments Panicked {A} msg.

(** The part of [encoding/json] the package calls.  [Unmarshal] is used at
    three target types.  [unmarshal_object] is the decoding into a
    [map[string]interface{}] that was made empty: it answers with the error,
    or with what it left in the target, which is [None] for the nil map
    that the document [null] sets a map to, and the map otherwise.
    [unmarshal_string_map] lists the entries of the decoded
    [map[string]string] in the order in which a later [range] visits them
    (none for a nil map).  [Marshal] cannot fail on the values of [JValue]
    (no channels, functions, cycles or non-finite floats), which
    [marshal_total] records. *)
Record JsonCodec : Type := mkJsonCodec {
  unmarshal_object : string -> error + option (gmap string JValue);
  unmarshal_strings : string -> error + list string;
  unmarshal_string_map : string -> error + list (string * string);
  marshal : JValue -> error + string;
  marshal_total : forall v, exists s, marshal v = inr s
}.

(** ** Data model *)

(** Modelled from the spec: the declarations of package [db] are not among
    the sources; the enumerations below follow the constants the job runner
    names and the kinds the specification lists, with one more constructor
    where the runner has a [default:] branch for kinds it does not name. *)
Inductive TemplateApp : Type :=
  | TemplateAnsible
  | TemplateAppOther (name : string).

Inductive TemplateType : Type :=
  | TemplateTask
  | TemplateBuild
  | TemplateDeploy.

Inductive InventoryType : Type :=
  | InventoryFile
  | InventoryStatic
  | InventoryStaticYaml
  | InventoryOther (name : string).

Inductive AccessKeyType : Type :=
  | AccessKeySSH
  | AccessKeyLoginPassword
  | AccessKeyNone
  | AccessKeyOther (name : string).

Inductive RepositoryType : Type :=
  | RepositoryLocal
  | RepositoryRemote (scheme : string).

Inductive AccessKeyRole : Type :=
  | AccessKeyRoleAnsibleUser
  | AccessKeyRoleAnsibleBecomeUser
  | AccessKeyRoleAnsiblePasswordVault.

Inductive TaskStatus : Type :=
  | TaskRunningStatus
  | TaskSuccessStatus
  | TaskFailStatus
  | TaskStoppedStatus.

#[global] Instance TemplateApp_eq_dec : EqDecision TemplateApp.
Proof. solve_decision. Defined.
#[global] Instance TemplateType_eq_dec : EqDecision TemplateType.
Proof. solve_decision. Defined.
#[global] Instance InventoryType_eq_dec : EqDecision InventoryType.
Proof. solve_decision. Defined.
#[global] Instance AccessKeyType_eq_dec : EqDecision AccessKeyType.
Proof. solve_decision. Defined.
#[global] Instance RepositoryType_eq_dec : EqDecision RepositoryType.
Proof. solve_decision. Defined.

(** The string a [db.TemplateType] is marshalled as. *)
Definition TemplateType_string (ty : TemplateType) : string :=
  match ty with
  | TemplateTask => ""
  | TemplateBuild => "build"
  | TemplateDeploy => "deploy"
  end.

Record Task : Type := mkTask {
  Task_ID : Z;
  Task_Playbook : string;
  Task_CommitHash : option string;
  Task_Message : string;
  Task_Version : option string;
  Task_Arguments : option string;
  Task_DryRun : bool;
  Task_Debug : bool;
  Task_Diff : bool;
  Task_Limit : string
}.

Record AccessKey : Type := mkAccessKey {
  AccessKey_Type : AccessKeyType;
  SshKey_Login : string
}.

Record Template : Type := mkTemplate {
  Template_ID : Z;
  Template_App : TemplateApp;
  Template_Type : TemplateType;
  Template_Playbook : string;
  Template_Arguments : option string;
  Template_AllowOverrideArgsInTask : bool;
  Template_VaultKeyID : option Z;
  Template_VaultKey : AccessKey
}.

Record Inventory : Type := mkInventory {
  Inventory_Type : InventoryType;
  Inventory_Inventory : string;
  Inventory_SSHKeyID : option Z;
  Inventory_SSHKey : AccessKey;
  Inventory_BecomeKeyID : option Z;
  Inventory_BecomeKey : AccessKey
}.

(** [Repository_GetType] stands for the method [GetType()], which derives the
    kind from the URL. *)
Record Repository : Type := mkRepository {
  Repository_GitURL : string;
  Repository_GetType : RepositoryType
}.

Record Environment : Type := mkEnvironment {
  Environment_JSON : string;
  Environment_ENV : option string
}.

(** The result of installing an access key: the path [GetPath()] returns and
    the socket file of the agent started for it. *)
Record AccessKeyInstallation : Type := mkInstallation {
  GetPath : string;
  SshAgent_SocketFile : string
}.

(** The zero value of the struct. *)
Definition noInstallation : AccessKeyInstallation := mkInstallation "" "".

(** An [*os.Process], identified by its pid. *)
Definition OsProcess : Type := Z.

Record LocalJob : Type := mkLocalJob {
  job_Task : Task;
  job_Template : Template;
  job_Inventory : Inventory;
  job_Repository : Repository;
  job_Environment : Environment;
  Process : option OsProcess;
  sshKeyInstallation : AccessKeyInstallation;
  becomeKeyInstallation : AccessKeyInstallation;
  vaultFileInstallation : AccessKeyInstallation
}.

Definition set_Process (p : option OsProcess) (t : LocalJob) : LocalJob :=
  mkLocalJob (job_Task t) (job_Template t) (job_Inventory t) (job_Repository t)
    (job_Environment t) p (sshKeyInstallation t) (becomeKeyInstallation t)
    (vaultFileInstallation t).

Definition set_sshKeyInstallation (i : AccessKeyInstallation) (t : LocalJob)
  : LocalJob :=
  mkLocalJob (job_Task t) (job_Template t) (job_Inventory t) (job_Repository t)
    (job_Environment t) (Process t) i (becomeKeyInstallation t)
    (vaultFileInstallation t).

Definition set_becomeKeyInstallation (i : AccessKeyInstallation) (t : LocalJob)
  : LocalJob :=
  mkLocalJob (job_Task t) (job_Template t) (job_Inventory t) (job_Repository t)
    (job_Environment t) (Process t) (sshKeyInstallation t) i
    (vaultFileInstallation t).

Definition set_vaultFileInstallation (i : AccessKeyInstallation) (t : LocalJob)
  : LocalJob :=
  mkLocalJob (job_Task t) (job_Template t) (job_Inventory t) (job_Repository t)
    (job_Environment t) (Process t) (sshKeyInstallation t)
    (becomeKeyInstallation t) i.

(** [util.Config], of which the job reads the temporary directory. *)
Record Config : Type := mkConfig {
  TmpPath : string
}.

(** ** The extra-variables payload *)

Section ExtraVars.

Variable json : JsonCodec.

(** [getEnvironmentExtraVars]: the decoded [Environment.JSON] with the
    [semaphore_vars] entry added.  The assignment of that entry is an
    assignment to an entry of [extraVars], which panics when the decoding
    has left the nil map there. *)
Definition getEnvironmentExtraVars (username : string)
    (incomingVersion : option string) (t : LocalJob)
  : Outcome (error + gmap string JValue) :=
  let extraVars : error + option (gmap string JValue) :=
    if decide (Environment_JSON (job_Environment t) <> "")
    then unmarshal_object json (Environment_JSON (job_Environment t))
    else inr (Some ∅) in
  match extraVars with
  | inl err => Returned (inl err)
  | inr extraVars =>
    let taskDetails : gmap string JValue := ∅ in
    let taskDetails := <["id" := JInt (Task_ID (job_Task t))]> taskDetails in
    let taskDetails :=
      if decide (Task_Message (job_Task t) <> "")
      then <["message" := JString (Task_Message (job_Task t))]> taskDetails
      else taskDetails in
    let taskDetails := <["username" := JString username]> taskDetails in
    let taskDetails :=
      if decide (Template_Type (job_Template t) <> TemplateTask)
      then
        let taskDetails :=
          <["type" :=
              JString (TemplateType_string (Template_Type (job_Template t)))]>
            taskDetails in
        let taskDetails :=
          match incomingVersion with
          | Some v => <["incoming_version" := JString v]> taskDetails
          | None => taskDetails
          end in
        if decide (Template_Type (job_Template t) = TemplateBuild)
        then <["target_version" := JStringPtr (Task_Version (job_Task t))]>
               taskDetails
        else taskDetails
      else taskDetails in
    let vars : gmap string JValue := ∅ in
    let vars := <["task_details" := JObject taskDetails]> vars in
    match extraVars with
    | None => Panicked "assignment to entry in nil map"
    | Some extraVars =>
      let extraVars := <["semaphore_vars" := JObject vars]> extraVars in
      Returned (inr extraVars)
    end
  end.

(** [getEnvironmentExtraVarsJSON]: the same construction, written out a
    second time in the source, with the same panic on a nil map, followed
    by [json.Marshal]. *)
Definition getEnvironmentExtraVarsJSON (username : string)
    (incomingVersion : option string) (t : LocalJob)
  : Outcome (error + string) :=
  let extraVars : error + option (gmap string JValue) :=
    if decide (Environment_JSON (job_Environment t) <> "")
    then unmarshal_object json (Environment_JSON (job_Environment t))
    else inr (Some ∅) in
  match extraVars with
  | inl err => Returned (inl err)
  | inr extraVars =>
    let taskDetails : gmap string JValue := ∅ in
    let taskDetails := <["id" := JInt (Task_ID (job_Task t))]> taskDetails in
    let taskDetails :=
      if decide (Task_Message (job_Task t) <> "")
      then <["message" := JString (Task_Message (job_Task t))]> taskDetails
      else taskDetails in
    let taskDetails := <["username" := JString username]> taskDetails in
    let taskDetails :=
      if decide (Template_Type (job_Template t) <> TemplateTask)
      then
        let taskDetails :=
          <["type" :=
              JString (TemplateType_string (Template_Type (job_Template t)))]>
            taskDetails in
        let taskDetails :=
          match incomingVersion with
          | Some v => <["incoming_version" := JString v]> taskDetails
          | None => taskDetails
          end in
        if decide (Template_Type (job_Template t) = TemplateBuild)
        then <["target_version" := JStringPtr (Task_Version (job_Task t))]>
               taskDetails
        else taskDetails
      else taskDetails in
    let vars : gmap string JValue := ∅ in
    let vars := <["task_details" := JObject taskDetails]> vars in
    match extraVars with
    | None => Panicked "assignment to entry in nil map"
    | Some extraVars =>
      let extraVars := <["semaphore_vars" := JObject vars]> extraVars in
      match marshal json (JObject extraVars) with
      | inl err => Returned (inl err)
      | inr ev => Returned (inr ev)
      end
    end
  end.

(** [getEnvironmentENV]: the decoded [Environment.ENV] as [KEY=VALUE]
    entries, in the order of the [range] over the decoded map. *)
Definition getEnvironmentENV (t : LocalJob) : error + list string :=
  let environmentVars : error + list (string * string) :=
    match Environment_ENV (job_Environment t) with
    | Some env => unmarshal_string_map json env
    | None => inr []
    end in
  match environmentVars with
  | inl err => inl err
  | inr environmentVars =>
    inr (foldl (fun arr kv => arr ++ [fst kv +:+ "=" +:+ snd kv])
           [] environmentVars)
  end.

End ExtraVars.

(** ** Interactions with the collaborators *)

(** One entry of the trace: a message or status handed to the logger, or a
    call made to the file system, the git client, the key store or the
    application runner. *)
Inductive Event : Type :=
  | EvLog (msg : string)
  | EvSetStatus (status : TaskStatus)
  | EvCheckTmpDir (path : string)
  | EvStat (path : string)
  | EvValidateRepo
  | EvCanBePulled
  | EvPull
  | EvClone
  | EvRemoveAll (path : string)
  | EvCheckout (commit : string)
  | EvInstallKey (role : AccessKeyRole) (key : AccessKey)
  | EvInstallStaticInventory
  | EvInstallRequirements
  | EvDestroyKeys (ssh become vault : AccessKeyInstallation)
  | EvAppRun (args env : list string)
  | EvProcessKill (p : OsProcess).

#[global] Instance AccessKey_eq_dec : EqDecision AccessKey.
Proof. solve_decision. Defined.
#[global] Instance AccessKeyRole_eq_dec : EqDecision AccessKeyRole.
Proof. solve_decision. Defined.
#[global] Instance TaskStatus_eq_dec : EqDecision TaskStatus.
Proof. solve_decision. Defined.
#[global] Instance AccessKeyInstallation_eq_dec
  : EqDecision AccessKeyInstallation.
Proof. solve_decision. Defined.
#[global] Instance Event_eq_dec : EqDecision Event.
Proof. solve_decision. Defined.

(** The answers of the collaborators.  Each one may depend on everything
    that happened before the call, so that, for instance, a repository can
    validate after a clone and not before.  [repo_GetFullPath] is the pure
    path computation of the git repository value. *)
Record World : Type := mkWorld {
  checkTmpDir : list Event -> string -> option error;
  os_Stat : list Event -> string -> option error;
  os_RemoveAll : list Event -> string -> option error;
  repo_GetFullPath : Z -> Repository -> string;
  repo_ValidateRepo : list Event -> option error;
  repo_CanBePulled : list Event -> bool;
  repo_Pull : list Event -> option error;
  repo_Clone : list Event -> option error;
  repo_Checkout : list Event -> string -> option error;
  AccessKey_Install :
    list Event -> AccessKeyRole -> AccessKey ->
    AccessKeyInstallation * option error;
  Installations_Destroy : list Event -> list error;
  installStaticInventory : list Event -> option error;
  App_InstallRequirements : list Event -> option error;
  App_Run :
    list Event -> list string -> list string ->
    option OsProcess * option error;
  Process_Kill : list Event -> OsProcess -> option error
}.

(** ** The monad of the job: state, trace and panics *)

Record RunState : Type := mkRunState {
  st_job : LocalJob;
  st_trace : list Event
}.

Definition M (A : Type) : Type := RunState -> Outcome A * RunState.

#[global] Instance M_ret : MRet M :=
  fun A (a : A) s => (Returned a, s).

#[global] Instance M_bind : MBind M :=
  fun A B (k : A -> M B) (m : M A) s =>
    match m s with
    | (Returned a, s') => k a s'
    | (Panicked msg, s') => (Panicked msg, s')
    end.

Definition panic {A : Type} (msg : string) : M A :=
  fun s => (Panicked msg, s).

Definition getJob : M LocalJob :=
  fun s => (Returned (st_job s), s).

Definition modifyJob (f : LocalJob -> LocalJob) : M unit :=
  fun s => (Returned tt, mkRunState (f (st_job s)) (st_trace s)).

(** A call to a collaborator: the answer is the oracle's at the current
    history, and the call is appended to the trace. *)
Definition call {R : Type} (ev : Event) (oracle : list Event -> R) : M R :=
  fun s => (Returned (oracle (st_trace s)),
            mkRunState (st_job s) (st_trace s ++ [ev])).

(** [defer cleanup] around [body]: the cleanup runs when the body returns
    and also when it panics; the outcome is the body's. *)
Definition defer {A : Type} (cleanup : M unit) (body : M A) : M A :=
  fun s =>
    match body s with
    | (r, s') => (r, snd (cleanup s'))
    end.

Fixpoint forEach {A : Type} (f : A -> M unit) (xs : list A) : M unit :=
  match xs with
  | [] => mret tt
  | x :: xs => f x ;; forEach f xs
  end.

(** Number of trace entries satisfying a test. *)
Definition count (p : Event -> bool) (tr : list Event) : nat :=
  length (filter (fun e => p e = true) tr).

Definition is_destroyKeys (e : Event) : bool :=
  match e with EvDestroyKeys _ _ _ => true | _ => false end.
Definition is_installKey (e : Event) : bool :=
  match e with EvInstallKey _ _ => true | _ => false end.
Definition is_appRun (e : Event) : bool :=
  match e with EvAppRun _ _ => true | _ => false end.
Definition is_kill (e : Event) : bool :=
  match e with EvProcessKill _ => true | _ => false end.
Definition is_pull (e : Event) : bool :=
  match e with EvPull => true | _ => false end.
Definition is_clone (e : Event) : bool :=
  match e with EvClone => true | _ => false end.
Definition is_removeAll (e : Event) : bool :=
  match e with EvRemoveAll _ => true | _ => false end.
Definition is_vcs (e : Event) : bool :=
  match e with
  | EvValidateRepo | EvCanBePulled | EvPull | EvClone | EvCheckout _ => true
  | _ => false
  end.

(** The double quote, for the argument texts that contain it. *)
Definition dquote : string := String "034"%char EmptyString.

(** ** The job runner *)

Section LocalJob.

Variable cfg : Config.
Variable json : JsonCodec.
Variable w : World.

Definition Log (msg : string) : M unit :=
  call (EvLog msg) (fun _ => tt).

Definition SetStatus (status : TaskStatus) : M unit :=
  call (EvSetStatus status) (fun _ => tt).

(** [Kill]: nothing when no process was recorded, else [Process.Kill] with
    its error logged. *)
Definition Kill : M unit :=
  t ← getJob;
  match Process t with
  | None => mret tt
  | Some p =>
    err ← call (EvProcessKill p) (fun h => Process_Kill w h p);
    match err with
    | Some err => Log (Error err)
    | None => mret tt
    end
  end.

(** The blocks of [getPlaybookArgs], in the order of the source.  Each
    takes the argument vector built so far; a block that can take the early
    [return] answers with the error. *)

(** The [switch] on the inventory type. *)
Definition inventoryOf (t : LocalJob) : error + string :=
  match Inventory_Type (job_Inventory t) with
  | InventoryFile => inr (Inventory_Inventory (job_Inventory t))
  | InventoryStatic | InventoryStaticYaml =>
    let inventory :=
      TmpPath cfg +:+ "/inventory_" +:+ Itoa (Task_ID (job_Task t)) in
    if decide (Inventory_Type (job_Inventory t) = InventoryStaticYaml)
    then inr (inventory +:+ ".yml")
    else inr inventory
  | InventoryOther _ => inl (Errorf "invalid invetory type")
  end.

(** The block on [Inventory.SSHKeyID]. *)
Definition appendSSHKeyArgs (t : LocalJob) (args : list string)
  : error + list string :=
  match Inventory_SSHKeyID (job_Inventory t) with
  | Some _ =>
    match AccessKey_Type (Inventory_SSHKey (job_Inventory t)) with
    | AccessKeySSH =>
      if decide (SshKey_Login (Inventory_SSHKey (job_Inventory t)) <> "")
      then inr (args ++
                ["--extra-vars={" +:+ dquote +:+ "ansible_user" +:+ dquote
                 +:+ ": " +:+ dquote
                 +:+ SshKey_Login (Inventory_SSHKey (job_Inventory t))
                 +:+ dquote +:+ "}"])
      else inr args
    | AccessKeyLoginPassword =>
      inr (args ++ ["--extra-vars=@" +:+ GetPath (sshKeyInstallation t)])
    | AccessKeyNone => inr args
    | AccessKeyOther _ =>
      inl (Errorf
             "access key does not suite for inventory's user credentials")
    end
  | None => inr args
  end.

(** The block on [Inventory.BecomeKeyID]. *)
Definition appendBecomeKeyArgs (t : LocalJob) (args : list string)
  : error + list string :=
  match Inventory_BecomeKeyID (job_Inventory t) with
  | Some _ =>
    match AccessKey_Type (Inventory_BecomeKey (job_Inventory t)) with
    | AccessKeyLoginPassword =>
      inr (args ++ ["--extra-vars=@" +:+ GetPath (becomeKeyInstallation t)])
    | AccessKeyNone => inr args
    | AccessKeySSH | AccessKeyOther _ =>
      inl (Errorf
        "access key does not suite for inventory's sudo user credentials")
    end
  | None => inr args
  end.

(** The four [if]s on [Debug], [Diff], [DryRun] and [VaultKeyID]. *)
Definition appendFlags (t : LocalJob) (args : list string) : list string :=
  let args := if Task_Debug (job_Task t) then args ++ ["-vvvv"] else args in
  let args := if Task_Diff (job_Task t) then args ++ ["--diff"] else args in
  let args := if Task_DryRun (job_Task t) then args ++ ["--check"] else args in
  match Template_VaultKeyID (job_Template t) with
  | Some _ =>
    args ++ ["--vault-password-file"; GetPath (vaultFileInstallation t)]
  | None => args
  end.

(** The block on the extra variables.  [extraVars, err := ...] stands in
    the outermost block of the function, where [err] is the named result:
    it assigns that result, which is the second component here.  A panic
    of [getEnvironmentExtraVarsJSON] goes on through the caller. *)
Definition appendExtraVars (username : string)
    (incomingVersion : option string) (t : LocalJob) (args : list string)
  : M (list string * option error) :=
  match getEnvironmentExtraVarsJSON json username incomingVersion t with
  | Panicked msg => panic msg
  | Returned (inl err) =>
    Log (Error err) ;;
    Log ("Could not remove command environment, if existant it will be "
         +:+ "passed to --extra-vars. This is not fatal but be aware of "
         +:+ "side effects") ;;
    mret (args, Some err)
  | Returned (inr extraVars) =>
    if decide (extraVars <> "")
    then mret (args ++ ["--extra-vars"; extraVars], None)
    else mret (args, None)
  end.

(** The block on [Template.Arguments]: [err] is assigned only when the
    arguments are present; the left answer is the early [return]. *)
Definition parseTemplateArguments (t : LocalJob) (err : option error)
  : error + list string * option error :=
  match Template_Arguments (job_Template t) with
  | Some a =>
    match unmarshal_strings json a with
    | inl err => inl err
    | inr templateExtraArgs => inr (templateExtraArgs, None)
    end
  | None => inr ([], err)
  end.

(** The block on [Task.Arguments], likewise. *)
Definition parseTaskArguments (t : LocalJob) (err : option error)
  : error + list string * option error :=
  if Template_AllowOverrideArgsInTask (job_Template t)
  then
    match Task_Arguments (job_Task t) with
    | Some a =>
      match unmarshal_strings json a with
      | inl err => inl err
      | inr taskExtraArgs => inr (taskExtraArgs, None)
      end
    | None => inr ([], err)
    end
  else inr ([], err).

(** The block on [Task.Limit]. *)
Definition appendLimit (t : LocalJob) (taskExtraArgs : list string)
  : M (list string) :=
  if decide (Task_Limit (job_Task t) <> "")
  then Log ("--limit=" +:+ Task_Limit (job_Task t)) ;;
       mret (taskExtraArgs ++ ["--limit=" +:+ Task_Limit (job_Task t)])
  else mret taskExtraArgs.

(** [getPlaybookArgs]: the pair of named results [(args, err)] as they
    stand at each [return]; the function panics where the block on the
    extra variables does. *)
Definition getPlaybookArgs (username : string)
    (incomingVersion : option string) : M (list string * option error) :=
  t ← getJob;
  let playbookName := Task_Playbook (job_Task t) in
  let playbookName :=
    if decide (playbookName = "")
    then Template_Playbook (job_Template t)
    else playbookName in
  match inventoryOf t with
  | inl err => mret ([], Some err)
  | inr inventory =>
  let args := ["-i"; inventory] in
  match appendSSHKeyArgs t args with
  | inl err => mret (args, Some err)
  | inr args =>
  match appendBecomeKeyArgs t args with
  | inl err => mret (args, Some err)
  | inr args =>
  let args := appendFlags t args in
  '(args, err) ← appendExtraVars username incomingVersion t args;
  match parseTemplateArguments t err with
  | inl err =>
    Log "Invalid format of the template extra arguments, must be valid JSON" ;;
    mret (args, Some err)
  | inr (templateExtraArgs, err) =>
  match parseTaskArguments t err with
  | inl err =>
    Log "Invalid format of the TaskRunner extra arguments, must be valid JSON" ;;
    mret (args, Some err)
  | inr (taskExtraArgs, err) =>
  taskExtraArgs ← appendLimit t taskExtraArgs;
  let args := args ++ templateExtraArgs in
  let args := args ++ taskExtraArgs in
  let args := args ++ [playbookName] in
  mret (args, err)
  end end end end end.

(** [updateRepository]: pull when the working copy validates and can be
    pulled, else remove the directory and clone. *)
Definition updateRepository : M (option error) :=
  t ← getJob;
  let fullPath :=
    repo_GetFullPath w (Template_ID (job_Template t)) (job_Repository t) in
  err ← call EvValidateRepo (repo_ValidateRepo w);
  match err with
  | Some err =>
    err ←
      (if negb (IsNotExist err)
       then call (EvRemoveAll fullPath) (fun h => os_RemoveAll w h fullPath)
       else mret None);
    match err with
    | Some err => mret (Some err)
    | None => call EvClone (repo_Clone w)
    end
  | None =>
    canBePulled ← call EvCanBePulled (repo_CanBePulled w);
    pulled ←
      (if (canBePulled : bool)
       then err ← call EvPull (repo_Pull w);
            mret (bool_decide (err = None))
       else mret false : M bool);
    if (pulled : bool) then mret None
    else
      err ← call (EvRemoveAll fullPath) (fun h => os_RemoveAll w h fullPath);
      match err with
      | Some err => mret (Some err)
      | None => call EvClone (repo_Clone w)
      end
  end.

(** [checkoutRepository]: validate again, then check out the pinned commit
    when the task has one. *)
Definition checkoutRepository : M (option error) :=
  t ← getJob;
  err ← call EvValidateRepo (repo_ValidateRepo w);
  match err with
  | Some err => mret (Some err)
  | None =>
    match Task_CommitHash (job_Task t) with
    | Some commit =>
      call (EvCheckout commit) (fun h => repo_Checkout w h commit)
    | None => mret None
    end
  end.

(** [installVaultKeyFile]: the installation is stored whatever [Install]
    answers, and its error is returned. *)
Definition installVaultKeyFile : M (option error) :=
  t ← getJob;
  match Template_VaultKeyID (job_Template t) with
  | None => mret None
  | Some _ =>
    '(inst, err) ←
      call (EvInstallKey AccessKeyRoleAnsiblePasswordVault
              (Template_VaultKey (job_Template t)))
           (fun h => AccessKey_Install w h AccessKeyRoleAnsiblePasswordVault
                       (Template_VaultKey (job_Template t)));
    modifyJob (set_vaultFileInstallation inst) ;;
    mret err
  end.

(** Modelled from the spec: [installInventory] is not among the sources.
    The credential installer installs the key of each role the job needs;
    for the inventory these are the login key and the become key, whose
    installations the command builder reads, each installed when the
    inventory refers to it, in the way [installVaultKeyFile] does for the
    vault key.  The inventory text of the two static kinds is then written
    to its temporary file. *)
Definition installInventory : M (option error) :=
  t ← getJob;
  err ←
    match Inventory_SSHKeyID (job_Inventory t) with
    | Some _ =>
      '(inst, err) ←
        call (EvInstallKey AccessKeyRoleAnsibleUser
                (Inventory_SSHKey (job_Inventory t)))
             (fun h => AccessKey_Install w h AccessKeyRoleAnsibleUser
                         (Inventory_SSHKey (job_Inventory t)));
      modifyJob (set_sshKeyInstallation inst) ;;
      mret err
    | None => mret None
    end;
  match err with
  | Some err => mret (Some err)
  | None =>
  err ←
    match Inventory_BecomeKeyID (job_Inventory t) with
    | Some _ =>
      '(inst, err) ←
        call (EvInstallKey AccessKeyRoleAnsibleBecomeUser
                (Inventory_BecomeKey (job_Inventory t)))
             (fun h => AccessKey_Install w h AccessKeyRoleAnsibleBecomeUser
                         (Inventory_BecomeKey (job_Inventory t)));
      modifyJob (set_becomeKeyInstallation inst) ;;
      mret err
    | None => mret None
    end;
  match err with
  | Some err => mret (Some err)
  | None =>
    match Inventory_Type (job_Inventory t) with
    | InventoryStatic | InventoryStaticYaml =>
      call EvInstallStaticInventory (installStaticInventory w)
    | _ => mret None
    end
  end end.

(** Modelled from the spec: [destroyKeys] is not among the sources.  It
    removes the three installations the job holds; failures of the removal
    are logged and never escalated. *)
Definition destroyKeys : M unit :=
  t ← getJob;
  errs ←
    call (EvDestroyKeys (sshKeyInstallation t) (becomeKeyInstallation t)
            (vaultFileInstallation t))
         (Installations_Destroy w);
  forEach (fun err => Log (Error err)) errs.

(** [prepareRun]: the preparation steps in sequence, each failure logged
    and returned. *)
Definition prepareRun : M (option error) :=
  t ← getJob;
  Log ("Preparing: " +:+ Itoa (Task_ID (job_Task t))) ;;
  err ← call (EvCheckTmpDir (TmpPath cfg))
             (fun h => checkTmpDir w h (TmpPath cfg));
  match err with
  | Some err =>
    Log ("Creating tmp dir failed: " +:+ Error err) ;;
    mret (Some err)
  | None =>
  err ←
    (if decide (Repository_GetType (job_Repository t) = RepositoryLocal)
     then
       err ← call (EvStat (Repository_GitURL (job_Repository t)))
                  (fun h => os_Stat w h (Repository_GitURL (job_Repository t)));
       match err with
       | Some err =>
         Log ("Failed in finding static repository at "
              +:+ Repository_GitURL (job_Repository t) +:+ ": "
              +:+ Error err) ;;
         mret (Some err)
       | None => mret None
       end
     else
       err ← updateRepository;
       match err with
       | Some err =>
         Log ("Failed updating repository: " +:+ Error err) ;;
         mret (Some err)
       | None =>
         err ← checkoutRepository;
         match err with
         | Some err =>
           Log ("Failed to checkout repository to required commit: "
                +:+ Error err) ;;
           mret (Some err)
         | None => mret None
         end
       end);
  match err with
  | Some err => mret (Some err)
  | None =>
  err ← installInventory;
  match err with
  | Some err =>
    Log ("Failed to install inventory: " +:+ Error err) ;;
    mret (Some err)
  | None =>
  err ← call EvInstallRequirements (App_InstallRequirements w);
  match err with
  | Some err =>
    Log ("Running galaxy failed: " +:+ Error err) ;;
    mret (Some err)
  | None =>
  err ← installVaultKeyFile;
  match err with
  | Some err =>
    Log ("Failed to install vault password file: " +:+ Error err) ;;
    mret (Some err)
  | None => mret None
  end end end end end.

(** [Run]: status, preparation, then, under the deferred [destroyKeys],
    the command line, the environment and the application run, whose
    callback records the process. *)
Definition Run (username : string) (incomingVersion : option string)
  : M (option error) :=
  SetStatus TaskRunningStatus ;;
  err ← prepareRun;
  match err with
  | Some err => mret (Some err)
  | None =>
    defer destroyKeys
      (t ← getJob;
       '(args, err) ←
         match Template_App (job_Template t) with
         | TemplateAnsible => getPlaybookArgs username incomingVersion
         | TemplateAppOther _ => panic "unknown template app"
         end;
       match err with
       | Some err => mret (Some err)
       | None =>
         match getEnvironmentENV json t with
         | inl err => mret (Some err)
         | inr environmentVariables =>
           let environmentVariables :=
             if bool_decide (AccessKey_Type (Inventory_SSHKey (job_Inventory t))
                             = AccessKeySSH)
                && bool_decide (Inventory_SSHKeyID (job_Inventory t) <> None)
             then environmentVariables ++
                  ["SSH_AUTH_SOCK="
                   +:+ SshAgent_SocketFile (sshKeyInstallation t)]
             else environmentVariables in
           '(p, err) ←
             call (EvAppRun args environmentVariables)
                  (fun h => App_Run w h args environmentVariables);
           match p with
           | Some p => modifyJob (set_Process (Some p))
           | None => mret tt
           end ;;
           mret err
         end
       end)
  end.

End LocalJob.

(** ** A reference codec

    An executable [JsonCodec] for the fragment of JSON with integer numbers
    and the two-character escapes, used to run the job on concrete
    configurations.  Decoding follows [encoding/json]: later members
    override earlier ones with the same key, [null] sets a map or slice
    target to nil and leaves a string target at its zero value; encoding
    sorts the keys of a map and escapes the characters [<], [>] and [&]. *)
Module RefJson.

Definition syntaxError : error := Errorf "invalid character in JSON input".
Definition typeError : error :=
  Errorf "json: cannot unmarshal value into Go value".

Definition is_ws (c : ascii) : bool :=
  bool_decide (c = " "%char) || bool_decide (c = "009"%char)
  || bool_decide (c = "010"%char) || bool_decide (c = "013"%char).

Fixpoint skip_ws (s : string) : string :=
  match s with
  | String c s' => if is_ws c then skip_ws s' else s
  | EmptyString => s
  end.

Fixpoint strip_prefix (p s : string) : option string :=
  match p, s with
  | EmptyString, _ => Some s
  | String a p', String b s' =>
    if bool_decide (a = b) then strip_prefix p' s' else None
  | String _ _, EmptyString => None
  end.

Definition unescape (c : ascii) : option ascii :=
  if bool_decide (c = "034"%char) then Some "034"%char
  else if bool_decide (c = "\"%char) then Some "\"%char
  else if bool_decide (c = "/"%char) then Some "/"%char
  else if bool_decide (c = "b"%char) then Some "008"%char
  else if bool_decide (c = "f"%char) then Some "012"%char
  else if bool_decide (c = "n"%char) then Some "010"%char
  else if bool_decide (c = "r"%char) then Some "013"%char
  else if bool_decide (c = "t"%char) then Some "009"%char
  else None.

(** The text after an opening quote, up to the closing one. *)
Fixpoint parse_string_body (s : string) : option (string * string) :=
  match s with
  | EmptyString => None
  | String c s' =>
    if bool_decide (c = "034"%char) then Some (EmptyString, s')
    else if bool_decide (c = "\"%char) then
      match s' with
      | String e s'' =>
        match unescape e, parse_string_body s'' with
        | Some c', Some (r, rest) => Some (String c' r, rest)
        | _, _ => None
        end
      | EmptyString => None
      end
    else if (nat_of_ascii c <? 32)%nat then None
    else
      match parse_string_body s' with
      | Some (r, rest) => Some (String c r, rest)
      | None => None
      end
  end.

Definition digit_of (c : ascii) : option Z :=
  let n := Z.of_nat (nat_of_ascii c) in
  if (48 <=? n) && (n <=? 57) then Some (n - 48) else None.

Fixpoint parse_digits (acc : Z) (s : string) : Z * string :=
  match s with
  | String c s' =>
    match digit_of c with
    | Some d => parse_digits (10 * acc + d) s'
    | None => (acc, s)
    end
  | EmptyString => (acc, s)
  end.

(** An integer literal: no leading zeros, no fraction, no exponent. *)
Definition parse_nat_lit (s : string) : option (Z * string) :=
  match s with
  | String c s' =>
    match digit_of c with
    | Some d =>
      let '(n, rest) := if d =? 0 then (0, s') else parse_digits d s' in
      match rest with
      | String c' _ =>
        if bool_decide (c' = "."%char) || bool_decide (c' = "e"%char)
           || bool_decide (c' = "E"%char)
           || (d =? 0) && bool_decide (is_Some (digit_of c'))
        then None else Some (n, rest)
      | EmptyString => Some (n, rest)
      end
    | None => None
    end
  | EmptyString => None
  end.

Fixpoint parse_value (fuel : nat) (s : string) : option (JValue * string) :=
  match fuel with
  | O => None
  | S fuel =>
    match skip_ws s with
    | EmptyString => None
    | String c s' as s0 =>
      if bool_decide (c = "034"%char) then
        match parse_string_body s' with
        | Some (r, rest) => Some (JString r, rest)
        | None => None
        end
      else if bool_decide (c = "["%char) then
        match skip_ws s' with
        | String "]"%char rest => Some (JArray [], rest)
        | _ => parse_elems fuel s'
        end
      else if bool_decide (c = "{"%char) then
        match skip_ws s' with
        | String "}"%char rest => Some (JObject ∅, rest)
        | _ => parse_members fuel ∅ s'
        end
      else if bool_decide (c = "-"%char) then
        match parse_nat_lit s' with
        | Some (n, rest) => Some (JInt (- n), rest)
        | None => None
        end
      else
        match strip_prefix "null" s0, strip_prefix "true" s0,
              strip_prefix "false" s0 with
        | Some rest, _, _ => Some (JNull, rest)
        | _, Some rest, _ => Some (JBool true, rest)
        | _, _, Some rest => Some (JBool false, rest)
        | _, _, _ =>
          match parse_nat_lit s0 with
          | Some (n, rest) => Some (JInt n, rest)
          | None => None
          end
        end
    end
  end
with parse_elems (fuel : nat) (s : string) : option (JValue * string) :=
  match fuel with
  | O => None
  | S fuel =>
    match parse_value fuel s with
    | Some (v, rest) =>
      match skip_ws rest with
      | String "]"%char rest' => Some (JArray [v], rest')
      | String ","%char rest' =>
        match parse_elems fuel rest' with
        | Some (JArray vs, rest'') => Some (JArray (v :: vs), rest'')
        | _ => None
        end
      | _ => None
      end
    | None => None
    end
  end
with parse_members (fuel : nat) (acc : gmap string JValue) (s : string)
  : option (JValue * string) :=
  match fuel with
  | O => None
  | S fuel =>
    match skip_ws s with
    | String "034"%char s' =>
      match parse_string_body s' with
      | Some (k, rest) =>
        match skip_ws rest with
        | String ":"%char rest' =>
          match parse_value fuel rest' with
          | Some (v, rest'') =>
            match skip_ws rest'' with
            | String "}"%char rest3 => Some (JObject (<[k := v]> acc), rest3)
            | String ","%char rest3 => parse_members fuel (<[k := v]> acc) rest3
            | _ => None
            end
          | None => None
          end
        | _ => None
        end
      | None => None
      end
    | _ => None
    end
  end.

(** A whole document: one value, with nothing but white space after it. *)
Definition parse (s : string) : option JValue :=
  match parse_value (S (String.length s)) s with
  | Some (v, rest) =>
    match skip_ws rest with
    | EmptyString => Some v
    | _ => None
    end
  | None => None
  end.

Definition hex_digit (n : nat) : ascii :=
  match String.get n "0123456789abcdef" with
  | Some c => c
  | None => "0"%char
  end.

(** [\u00XX] for a byte. *)
Definition unicode_escape (c : ascii) : string :=
  "\u00" +:+ String (hex_digit (nat_of_ascii c / 16))
               (String (hex_digit (nat_of_ascii c mod 16)) EmptyString).

Definition escape_char (c : ascii) : string :=
  if bool_decide (c = "034"%char) then "\" +:+ dquote
  else if bool_decide (c = "\"%char) then "\\"
  else if bool_decide (c = "010"%char) then "\n"
  else if bool_decide (c = "013"%char) then "\r"
  else if bool_decide (c = "009"%char) then "\t"
  else if (nat_of_ascii c <? 32)%nat
          || bool_decide (c = "<"%char) || bool_decide (c = ">"%char)
          || bool_decide (c = "&"%char)
  then unicode_escape c
  else String c EmptyString.

Fixpoint escape (s : string) : string :=
  match s with
  | EmptyString => EmptyString
  | String c s' => escape_char c +:+ escape s'
  end.

Definition quote (s : string) : string := dquote +:+ escape s +:+ dquote.

Definition key_le (a b : string * string) : bool :=
  bool_decide (String.le (fst a) (fst b)).

(** The encoding of a value; the members of a map come in key order. *)
Fixpoint render (v : JValue) : string :=
  match v with
  | JNull => "null"
  | JBool b => if b then "true" else "false"
  | JInt n => pretty n
  | JString s => quote s
  | JArray xs => "[" +:+ String.concat "," (map render xs) +:+ "]"
  | JObject m =>
    "{" +:+
    String.concat ","
      (map (fun kv => quote (fst kv) +:+ ":" +:+ snd kv)
         (merge_sort key_le
            (map_fold (fun k x acc => (k, render x) :: acc) [] m)))
    +:+ "}"
  end.

Definition as_string (v : JValue) : option string :=
  match v with
  | JString s => Some s
  | JNull => Some EmptyString
  | _ => None
  end.

Definition unmarshal_object (s : string)
  : error + option (gmap string JValue) :=
  match parse s with
  | Some (JObject m) => inr (Some m)
  | Some JNull => inr None
  | Some _ => inl typeError
  | None => inl syntaxError
  end.

Definition unmarshal_strings (s : string) : error + list string :=
  match parse s with
  | Some (JArray xs) =>
    match mapM as_string xs with
    | Some l => inr l
    | None => inl typeError
    end
  | Some JNull => inr []
  | Some _ => inl typeError
  | None => inl syntaxError
  end.

Definition unmarshal_string_map (s : string)
  : error + list (string * string) :=
  match parse s with
  | Some (JObject m) =>
    match mapM (fun kv => v ← as_string (snd kv); Some (fst kv, v))
               (map_to_list m) with
    | Some l => inr (merge_sort key_le l)
    | None => inl typeError
    end
  | Some JNull => inr []
  | Some _ => inl typeError
  | None => inl syntaxError
  end.

Definition marshal (v : JValue) : error + string := inr (render v).

Definition codec : JsonCodec :=
  mkJsonCodec unmarshal_object unmarshal_strings unmarshal_string_map
    marshal (fun v => ex_intro _ (render v) eq_refl).

End RefJson.

(** ** The command line the specification describes

    The argument vector as the specification lists it, piece by piece, to
    be compared with what [getPlaybookArgs] builds. *)
Section ExpectedArgs.

Variable cfg : Config.
Variable json : JsonCodec.

Definition spec_inventoryArg (t : LocalJob) : error + string :=
  match Inventory_Type (job_Inventory t) with
  | InventoryFile => inr (Inventory_Inventory (job_Inventory t))
  | InventoryStatic =>
    inr (TmpPath cfg +:+ "/inventory_" +:+ Itoa (Task_ID (job_Task t)))
  | InventoryStaticYaml =>
    inr (TmpPath cfg +:+ "/inventory_" +:+ Itoa (Task_ID (job_Task t))
         +:+ ".yml")
  | InventoryOther _ => inl (Errorf "invalid invetory type")
  end.

Definition spec_loginExtras (t : LocalJob) : list string :=
  match Inventory_SSHKeyID (job_Inventory t),
        AccessKey_Type (Inventory_SSHKey (job_Inventory t)) with
  | Some _, AccessKeySSH =>
    if decide (SshKey_Login (Inventory_SSHKey (job_Inventory t)) = "")
    then []
    else ["--extra-vars={" +:+ dquote +:+ "ansible_user" +:+ dquote
          +:+ ": " +:+ dquote
          +:+ SshKey_Login (Inventory_SSHKey (job_Inventory t))
          +:+ dquote +:+ "}"]
  | Some _, AccessKeyLoginPassword =>
    ["--extra-vars=@" +:+ GetPath (sshKeyInstallation t)]
  | _, _ => []
  end.

Definition spec_becomeExtras (t : LocalJob) : list string :=
  match Inventory_BecomeKeyID (job_Inventory t),
        AccessKey_Type (Inventory_BecomeKey (job_Inventory t)) with
  | Some _, AccessKeyLoginPassword =>
    ["--extra-vars=@" +:+ GetPath (becomeKeyInstallation t)]
  | _, _ => []
  end.

Definition spec_flagArgs (t : LocalJob) : list string :=
  (if Task_Debug (job_Task t) then ["-vvvv"] else [])
  ++ (if Task_Diff (job_Task t) then ["--diff"] else [])
  ++ (if Task_DryRun (job_Task t) then ["--check"] else []).

Definition spec_vaultArgs (t : LocalJob) : list string :=
  match Template_VaultKeyID (job_Template t) with
  | Some _ => ["--vault-password-file"; GetPath (vaultFileInstallation t)]
  | None => []
  end.

(** The payload is passed when it could be built. *)
Definition spec_payloadArgs (username : string)
    (incomingVersion : option string) (t : LocalJob) : list string :=
  match getEnvironmentExtraVarsJSON json username incomingVersion t with
  | Returned (inr payload) =>
    if decide (payload = "") then [] else ["--extra-vars"; payload]
  | _ => []
  end.

Definition spec_templateLevelArgs (t : LocalJob) : list string :=
  match Template_Arguments (job_Template t) with
  | Some a =>
    match unmarshal_strings json a with
    | inr l => l
    | inl _ => []
    end
  | None => []
  end.

Definition spec_taskLevelArgs (t : LocalJob) : list string :=
  (if Template_AllowOverrideArgsInTask (job_Template t)
   then match Task_Arguments (job_Task t) with
        | Some a =>
          match unmarshal_strings json a with
          | inr l => l
          | inl _ => []
          end
        | None => []
        end
   else [])
  ++ (if decide (Task_Limit (job_Task t) = "") then []
      else ["--limit=" +:+ Task_Limit (job_Task t)]).

Definition spec_playbookPath (t : LocalJob) : string :=
  if decide (Task_Playbook (job_Task t) = "")
  then Template_Playbook (job_Template t)
  else Task_Playbook (job_Task t).

(** Everything after ["-i"; inventory]. *)
Definition spec_argsAfterInventory (username : string)
    (incomingVersion : option string) (t : LocalJob) : list string :=
  spec_loginExtras t ++ spec_becomeExtras t
  ++ spec_flagArgs t ++ spec_vaultArgs t
  ++ spec_payloadArgs username incomingVersion t
  ++ spec_templateLevelArgs t ++ spec_taskLevelArgs t ++ [spec_playbookPath t].

End ExpectedArgs.

(** ** Concrete configurations

    A job in the shape of the end-to-end scenario of the specification
    (task 42 limited to [web*], a template that lets the task override its
    arguments, a static YAML inventory), and collaborators with constant
    answers. *)
Module Scenario.

Definition config : Config := mkConfig "/tmp/semaphore".

Definition deployKey : AccessKey := mkAccessKey AccessKeySSH "deploy".
Definition noKey : AccessKey := mkAccessKey AccessKeyNone "".

Definition task : Task :=
  mkTask 42 "" None "" None None false false false "web*".

Definition template : Template :=
  mkTemplate 7 TemplateAnsible TemplateTask "site.yml" None true None noKey.

Definition inventory : Inventory :=
  mkInventory InventoryStaticYaml "" (Some 3) deployKey None noKey.

Definition repository : Repository :=
  mkRepository "git@example.com:ops/playbooks.git" (RepositoryRemote "ssh").

(** [{"region": 3}] *)
Definition environment : Environment :=
  mkEnvironment ("{" +:+ dquote +:+ "region" +:+ dquote +:+ ": 3}") None.

Definition job : LocalJob :=
  mkLocalJob task template inventory repository environment None
    noInstallation noInstallation noInstallation.

Definition start (t : LocalJob) : RunState := mkRunState t [].

(** The same job with a template of another application. *)
Definition terraformJob : LocalJob :=
  mkLocalJob task
    (mkTemplate 7 (TemplateAppOther "terraform") TemplateTask "site.yml" None
       true None noKey)
    inventory repository environment None
    noInstallation noInstallation noInstallation.

(** The same job with an environment that is not valid JSON. *)
Definition brokenEnvironmentJob : LocalJob :=
  mkLocalJob task template inventory repository (mkEnvironment "{" None) None
    noInstallation noInstallation noInstallation.

(** The same job with the environment [null]. *)
Definition nullEnvironmentJob : LocalJob :=
  mkLocalJob task template inventory repository (mkEnvironment "null" None)
    None noInstallation noInstallation noInstallation.

(** A build job started by user and upstream version, with a message. *)
Definition buildJob : LocalJob :=
  mkLocalJob
    (mkTask 42 "" None "nightly" (Some "1.4.0") None false false false "")
    (mkTemplate 7 TemplateAnsible TemplateBuild "build.yml" None false None
       noKey)
    inventory repository environment None
    noInstallation noInstallation noInstallation.

(** The same job on a directory that is already on the host. *)
Definition localJob : LocalJob :=
  mkLocalJob task template inventory
    (mkRepository "/srv/playbooks" RepositoryLocal) environment None
    noInstallation noInstallation noInstallation.

Definition installed : AccessKeyInstallation :=
  mkInstallation "/tmp/semaphore/access_key_1" "/tmp/semaphore/agent.sock".

(** Collaborators that answer the same at every point of the history:
    the given answers for repository validation, directory removal,
    requirements installation and process termination, success for
    everything else. *)
Definition world (validate removeAll requirements kill : option error)
  : World :=
  {| checkTmpDir := fun _ _ => None;
     os_Stat := fun _ _ => None;
     os_RemoveAll := fun _ _ => removeAll;
     repo_GetFullPath := fun id _ =>
       "/tmp/semaphore/repository_1_" +:+ Itoa id;
     repo_ValidateRepo := fun _ => validate;
     repo_CanBePulled := fun _ => true;
     repo_Pull := fun _ => None;
     repo_Clone := fun _ => None;
     repo_Checkout := fun _ _ => None;
     AccessKey_Install := fun _ _ _ => (installed, None);
     Installations_Destroy := fun _ => [];
     installStaticInventory := fun _ => None;
     App_InstallRequirements := fun _ => requirements;
     App_Run := fun _ _ _ => (Some 4242, None);
     Process_Kill := fun _ _ => kill |}.

Definition quietWorld : World := world None None None None.

Definition galaxyError : error := Errorf "exit status 1".
Definition galaxyFails : World := world None None (Some galaxyError) None.

Definition staleError : error := Errorf "remote url mismatch".
Definition removeError : error := Errorf "permission denied".
Definition removalFails : World :=
  world (Some staleError) (Some removeError) None None.

End Scenario.

(** ** Reasoning about computations and their traces *)

(** [runs I P m]: started on a job satisfying [I], the computation [m]
    returns (it does not panic), keeps [I], and only appends events that
    satisfy [P] to the trace. *)
Definition runs {A : Type} (I : LocalJob -> Prop) (P : Event -> Prop)
    (m : M A) : Prop :=
  forall s, I (st_job s) ->
    exists a j tr,
      m s = (Returned a, mkRunState j (st_trace s ++ tr))
      /\ I j /\ Forall P tr.

(** [traces I P m]: the same without the promise to return: started on a
    job satisfying [I], the computation [m] returns or panics, and either
    way keeps [I] and has only appended events that satisfy [P]. *)
Definition traces {A : Type} (I : LocalJob -> Prop) (P : Event -> Prop)
    (m : M A) : Prop :=
  forall s, I (st_job s) ->
    exists out j tr,
      m s = (out, mkRunState j (st_trace s ++ tr))
      /\ I j /\ Forall P tr.

(** The job keeps its configuration: only the process handle and the three
    installations are ever assigned. *)
Definition same_config (t0 t : LocalJob) : Prop :=
  job_Task t = job_Task t0 /\ job_Template t = job_Template t0
  /\ job_Inventory t = job_Inventory t0
  /\ job_Repository t = job_Repository t0
  /\ job_Environment t = job_Environment t0.

(** The invariants on the job that the assignments preserve. *)
Definition stable (I : LocalJob -> Prop) : Prop :=
  forall t, I t ->
    (forall p, I (set_Process p t))
    /\ (forall i, I (set_sshKeyInstallation i t))
    /\ (forall i, I (set_becomeKeyInstallation i t))
    /\ (forall i, I (set_vaultFileInstallation i t)).

(** The events of the preparation phase. *)
Definition is_prepare (e : Event) : bool :=
  match e with
  | EvLog _ | EvCheckTmpDir _ | EvStat _ | EvValidateRepo | EvCanBePulled
  | EvPull | EvClone | EvRemoveAll _ | EvCheckout _ | EvInstallKey _ _
  | EvInstallStaticInventory | EvInstallRequirements => true
  | _ => false
  end.

(** Of these, the ones that do not touch the repository through git or
    remove its directory. *)
Definition is_prepare_local (e : Event) : bool :=
  is_prepare e && negb (is_vcs e) && negb (is_removeAll e).

(** What [updateRepository] did before it removes the directory of a
    working copy that is present: a validation that failed for another
    reason than a missing directory, a valid copy that cannot be pulled, or
    a pull that failed. *)
Definition stale_copy (w : World) (h : list Event) (pre : list Event)
  : Prop :=
  (exists err, repo_ValidateRepo w h = Some err /\ IsNotExist err = false
               /\ pre = [EvValidateRepo])
  \/ (repo_ValidateRepo w h = None
      /\ repo_CanBePulled w (h ++ [EvValidateRepo]) = false
      /\ pre = [EvValidateRepo; EvCanBePulled])
  \/ (repo_ValidateRepo w h = None
      /\ repo_CanBePulled w (h ++ [EvValidateRepo]) = true
      /\ repo_Pull w (h ++ [EvValidateRepo; EvCanBePulled]) <> None
      /\ pre = [EvValidateRepo; EvCanBePulled; EvPull]).

(** The state in which [Run] enters the preparation. *)
Definition entered (s : RunState) : RunState :=
  mkRunState (st_job s) (st_trace s ++ [EvSetStatus TaskRunningStatus]).

(** The entries of [task_details] as the specification lists them: which
    keys are present, and with which values. *)
Definition task_details_as_specified (username : string)
    (incomingVersion : option string) (t : LocalJob)
    (td : gmap string JValue) : Prop :=
  td !! "id" = Some (JInt (Task_ID (job_Task t)))
  /\ td !! "message"
     = (if decide (Task_Message (job_Task t) = "") then None
        else Some (JString (Task_Message (job_Task t))))
  /\ td !! "username" = Some (JString username)
  /\ td !! "type"
     = (if decide (Template_Type (job_Template t) = TemplateTask) then None
        else Some (JString
                     (TemplateType_string (Template_Type (job_Template t)))))
  /\ td !! "incoming_version"
     = (if decide (Template_Type (job_Template t) = TemplateTask) then None
        else JString <$> incomingVersion)
  /\ td !! "target_version"
     = (if decide (Template_Type (job_Template t) = TemplateBuild)
        then Some (JStringPtr (Task_Version (job_Task t)))
        else None).

(** The environment list [Run] hands to the application: the decoded
    entries, and the agent socket when the login key is an SSH key. *)
Definition runEnvironment (t : LocalJob) (env : list string) : list string :=
  if bool_decide (AccessKey_Type (Inventory_SSHKey (job_Inventory t))
                  = AccessKeySSH)
     && bool_decide (Inventory_SSHKeyID (job_Inventory t) <> None)
  then env ++ ["SSH_AUTH_SOCK=" +:+ SshAgent_SocketFile (sshKeyInstallation t)]
  else env.

(** The environments on which the assignment of [semaphore_vars] panics:
    a text that is handed to the decoder and leaves the nil map. *)
Definition nil_environment (json : JsonCodec) (t : LocalJob) : Prop :=
  Environment_JSON (job_Environment t) <> ""
  /\ unmarshal_object json (Environment_JSON (job_Environment t)) = inr None.

(** The inventory and the keys with which [getPlaybookArgs] gets as far
    as the extra variables. *)
Definition playbookArgs_keys_accepted (t : LocalJob) : Prop :=
  (forall name, Inventory_Type (job_Inventory t) <> InventoryOther name)
  /\ (Inventory_SSHKeyID (job_Inventory t) = None
      \/ forall name,
           AccessKey_Type (Inventory_SSHKey (job_Inventory t))
           <> AccessKeyOther name)
  /\ (Inventory_BecomeKeyID (job_Inventory t) = None
      \/ AccessKey_Type (Inventory_BecomeKey (job_Inventory t))
         = AccessKeyLoginPassword
      \/ AccessKey_Type (Inventory_BecomeKey (job_Inventory t))
         = AccessKeyNone).

(** The configurations [getPlaybookArgs] accepts. *)
Definition playbookArgs_accepted (json : JsonCodec) (username : string)
    (incomingVersion : option string) (t : LocalJob) : Prop :=
  (forall name, Inventory_Type (job_Inventory t) <> InventoryOther name)
  /\ (Inventory_SSHKeyID (job_Inventory t) = None
      \/ forall name,
           AccessKey_Type (Inventory_SSHKey (job_Inventory t))
           <> AccessKeyOther name)
  /\ (Inventory_BecomeKeyID (job_Inventory t) = None
      \/ AccessKey_Type (Inventory_BecomeKey (job_Inventory t))
         = AccessKeyLoginPassword
      \/ AccessKey_Type (Inventory_BecomeKey (job_Inventory t))
         = AccessKeyNone)
  /\ (forall a, Template_Arguments (job_Template t) = Some a ->
        exists l, unmarshal_strings json a = inr l)
  /\ (Template_AllowOverrideArgsInTask (job_Template t) = true ->
      forall a, Task_Arguments (job_Task t) = Some a ->
        exists l, unmarshal_strings json a = inr l)
  /\ ~ nil_environment json t
  /\ ((exists payload,
         getEnvironmentExtraVarsJSON json username incomingVersion t
         = Returned (inr payload))
      \/ is_Some (Template_Arguments (job_Template t))
      \/ (Template_AllowOverrideArgsInTask (job_Template t) = true
          /\ is_Some (Task_Arguments (job_Task t)))).

(** ** The arguments of the other engine *)

Section Terraform.

Variable json : JsonCodec.

(** The order in which a [range] over a map visits its keys; the language
    leaves it open. *)
Variable rangeKeys : gmap string JValue -> list string.

(** [getTerraformArgs]: the mode, then [-var] and the key for every key of
    the extra variables.  The error of [getEnvironmentExtraVars] is
    logged and returned; its panic goes on through the caller. *)
Definition getTerraformArgs (username : string)
    (incomingVersion : option string) : M (list string * option error) :=
  t ← getJob;
  let args : list string := [] in
  let args :=
    if Task_DryRun (job_Task t) then args ++ ["plan"] else args ++ ["apply"] in
  match getEnvironmentExtraVars json username incomingVersion t with
  | Panicked msg => panic msg
  | Returned (inl err) =>
    Log (Error err) ;;
    Log ("Could not remove command environment, if existant it will be "
         +:+ "passed to --extra-vars. This is not fatal but be aware of "
         +:+ "side effects") ;;
    mret (args, Some err)
  | Returned (inr extraVars) =>
    let args :=
      foldl (fun args v => args ++ ["-var"; v]) args (rangeKeys extraVars) in
    mret (args, None)
  end.

End Terraform.

(** ** The object store on bbolt *)
Module Bolt.

(** The declarations of package [db] are not among the sources; of the
    properties of an object kind the store reads the table name, and of
    the query parameters the four fields below. *)
Record ObjectProperties : Type := mkObjectProperties {
  TableName : string
}.

Record RetrieveQueryParams : Type := mkRetrieveQueryParams {
  Offset : Z;
  Count : Z;
  SortBy : string;
  SortInverted : bool
}.

Fixpoint zeros (n : nat) : string :=
  match n with
  | O => EmptyString
  | S n => String "0"%char (zeros n)
  end.

(** [fmt.Sprintf("%010d", n)]: the decimal digits, padded with zeros
    after the sign to a width of ten. *)
Definition Sprintf_010d (n : Z) : string :=
  let digits := pretty (Z.to_N (Z.abs n)) in
  if n <? 0
  then "-" +:+ zeros (9 - String.length digits) +:+ digits
  else zeros (10 - String.length digits) +:+ digits.

(** [makeBucketId]: the table name followed by one padded segment for each
    id. *)
Definition makeBucketId (props : ObjectProperties) (ids : list Z) : string :=
  foldl (fun id i => id +:+ ("_" +:+ Sprintf_010d i)) (TableName props) ids.

(** Reading a padded segment back: the value of a string of digits, and
    of a segment with its sign. *)
Definition digit_value (c : ascii) : N := N.of_nat (nat_of_ascii c) - 48.

Fixpoint decimal_go (acc : N) (s : string) : N :=
  match s with
  | EmptyString => acc
  | String c s => decimal_go (10 * acc + digit_value c) s
  end.

Definition padded_value (s : string) : Z :=
  match s with
  | String "-"%char s => - Z.of_N (decimal_go 0 s)
  | _ => Z.of_N (decimal_go 0 s)
  end.

(** A bucket of the database: its keys with their values, and its
    sequence counter.  The database is the finite map of its top-level
    buckets. *)
Record Bucket : Type := mkBucket {
  bucket_data : gmap string string;
  bucket_sequence : Z
}.

(** [Bucket.Delete]: removing a key that is absent is no error. *)
Definition Bucket_Delete (key : string) (b : Bucket) : Bucket :=
  mkBucket (delete key (bucket_data b)) (bucket_sequence b).

Definition Bucket_Put (key value : string) (b : Bucket) : Bucket :=
  mkBucket (<[key := value]> (bucket_data b)) (bucket_sequence b).

(** [DB.View]: a read-only transaction. *)
Definition View {A : Type} (f : gmap string Bucket -> A)
    (db : gmap string Bucket) : A :=
  f db.

(** [DB.Update]: the changes of the transaction are committed when the
    function returns no error and rolled back otherwise. *)
Definition Update (f : gmap string Bucket -> gmap string Bucket * option error)
    (db : gmap string Bucket) : gmap string Bucket * option error :=
  match f db with
  | (db', None) => (db', None)
  | (_, Some err) => (db, Some err)
  end.

(** The value stored for an id of a project and kind. *)
Definition stored (db : gmap string Bucket) (projectID : Z)
    (props : ObjectProperties) (objectID : Z) : option string :=
  b ← db !! makeBucketId props [projectID]; bucket_data b !! Itoa objectID.

Section Store.

(** [db.ErrNotFound], [db.ErrInvalidOperation] and [db.InventoryObject]. *)
Variable ErrNotFound : error.
Variable ErrInvalidOperation : error.
Variable InventoryObject : ObjectProperties.

(** The objects of one kind: struct values with an integer field [ID], and
    their JSON encoding and decoding. *)
Variable Obj : Type.
Variable Obj_ID : Obj -> Z.
Variable decodeObject : string -> error + Obj.
Variable encodeObject : Obj -> error + string.

(** [getObject]: the decoded value stored under the id in the bucket of
    the project. *)
Definition getObject (db : gmap string Bucket) (projectID : Z)
    (props : ObjectProperties) (objectID : Z) : error + Obj :=
  View (fun tx =>
    match tx !! makeBucketId props [projectID] with
    | None => inl ErrNotFound
    | Some b =>
      let id := Itoa objectID in
      match bucket_data b !! id with
      | None => inl ErrNotFound
      | Some str => decodeObject str
      end
    end) db.

(** [isObjectInUse]: whether the bucket exists and holds the id. *)
Definition isObjectInUse (db : gmap string Bucket) (projectID : Z)
    (props : ObjectProperties) (objectID : Z) : bool * option error :=
  View (fun tx =>
    (match tx !! makeBucketId props [projectID] with
     | None => false
     | Some b => bool_decide (is_Some (bucket_data b !! Itoa objectID))
     end, None)) db.

(** [deleteObject]: refused for an id that [isObjectInUse] reports; else
    the id is deleted from the bucket of [db.InventoryObject]. *)
Definition deleteObject (db : gmap string Bucket) (projectID : Z)
    (props : ObjectProperties) (objectID : Z)
  : gmap string Bucket * option error :=
  let '(inUse, err) := isObjectInUse db projectID props objectID in
  match err with
  | Some err => (db, Some err)
  | None =>
    if inUse then (db, Some ErrInvalidOperation)
    else
      Update (fun tx =>
        match tx !! makeBucketId InventoryObject [projectID] with
        | None => (tx, Some ErrNotFound)
        | Some b =>
          (<[makeBucketId InventoryObject [projectID] :=
               Bucket_Delete (Itoa objectID) b]> tx, None)
        end) db
  end.

Definition deleteObjectSoft (db : gmap string Bucket) (projectID : Z)
    (props : ObjectProperties) (objectID : Z)
  : gmap string Bucket * option error :=
  deleteObject db projectID props objectID.

(** [updateObject]: the encoding of the object replaces the value stored
    under its id, which must be there. *)
Definition updateObject (db : gmap string Bucket) (projectID : Z)
    (props : ObjectProperties) (object : Obj)
  : gmap string Bucket * option error :=
  Update (fun tx =>
    match tx !! makeBucketId props [projectID] with
    | None => (tx, Some ErrNotFound)
    | Some b =>
      let id := Itoa (Obj_ID object) in
      match bucket_data b !! id with
      | None => (tx, Some ErrNotFound)
      | Some _ =>
        match encodeObject object with
        | inl err => (tx, Some err)
        | inr str =>
          (<[makeBucketId props [projectID] := Bucket_Put id str b]> tx, None)
        end
      end
    end) db.

(** What [json.Unmarshal(v, &obj)] leaves in [obj], with its error, and
    [sortObjects] on a slice. *)
Variable unmarshalInto : string -> Obj * option error.
Variable sortObjects : list Obj -> string -> bool -> list Obj * option error.

(** The loop of [unmarshalObjects] over the remaining entries.  The left
    answer is the [return] inside the loop, the right one the state in
    which the loop is left. *)
Fixpoint unmarshalObjects_loop (params : RetrieveQueryParams)
    (rawData : list (string * string)) (i n : Z) (objects : list Obj)
    (err : option error)
  : list Obj * option error + list Obj * option error :=
  match rawData with
  | [] => inr (objects, err)
  | (k, v) :: rawData =>
    if i <? Offset params
    then unmarshalObjects_loop params rawData i n objects err
    else
      let '(obj, err) := unmarshalInto v in
      match err with
      | None => inl (objects, err)
      | Some _ =>
        let objects := objects ++ [obj] in
        let n := n + 1 in
        if Count params <? n then inr (objects, err)
        else unmarshalObjects_loop params rawData i n objects err
      end
  end.

(** [unmarshalObjects]: the slice [objects] points to, and the error. *)
Definition unmarshalObjects (rawData : list (string * string))
    (params : RetrieveQueryParams) (objects : list Obj)
  : list Obj * option error :=
  match unmarshalObjects_loop params rawData 0 0 objects None with
  | inl r => r
  | inr (objects, err) =>
    match err with
    | Some err => (objects, Some err)
    | None =>
      if decide (SortBy params <> "")
      then sortObjects objects (SortBy params) (SortInverted params)
      else (objects, None)
    end
  end.

End Store.

End Bolt.

(** ** More concrete configurations *)
Module MoreScenario.

(** A [range] that visits the keys in the order of the map's listing. *)
Definition rangeKeys (m : gmap string JValue) : list string :=
  (map_to_list m).*1.

Definition ErrNotFound : error := Errorf "no rows in result set".
Definition ErrInvalidOperation : error := Errorf "invalid operation".

Definition InventoryObject : Bolt.ObjectProperties :=
  Bolt.mkObjectProperties "project__inventory".
Definition KeyObject : Bolt.ObjectProperties :=
  Bolt.mkObjectProperties "access_key".

(** Objects with an id and a name, stored as [{"id": .., "name": ..}];
    the document [null] leaves the zero value of the struct. *)
Definition Obj : Type := Z * string.

Definition Obj_ID (o : Obj) : Z := fst o.

Definition encodeObject (o : Obj) : error + string :=
  RefJson.marshal
    (JObject (<["id" := JInt (fst o)]> {["name" := JString (snd o)]})).

Definition decodeObject (str : string) : error + Obj :=
  match RefJson.unmarshal_object str with
  | inl err => inl err
  | inr None => inr (0, "")
  | inr (Some m) =>
    match m !! "id", m !! "name" with
    | Some (JInt id), Some (JString name) => inr (id, name)
    | _, _ => inl RefJson.typeError
    end
  end.

Definition unmarshalInto (v : string) : Obj * option error :=
  match decodeObject v with
  | inl err => ((0, ""), Some err)
  | inr o => (o, None)
  end.

Definition sortObjects (objects : list Obj) (sortBy : string)
    (sortInverted : bool) : list Obj * option error :=
  (objects, None).

Definition encoded (o : Obj) : string :=
  match encodeObject o with
  | inr str => str
  | inl _ => ""
  end.

(** Project 1 with the inventory 5 and the access key 6. *)
Definition store : gmap string Bolt.Bucket :=
  <[Bolt.makeBucketId InventoryObject [1] :=
      Bolt.mkBucket {[Itoa 5 := encoded (5, "hosts")]} 5]>
    {[Bolt.makeBucketId KeyObject [1] :=
        Bolt.mkBucket {[Itoa 6 := encoded (6, "deploy")]} 6]}.

(** The entries of a bucket in which the second text is not an object. *)
Definition entries : list (string * string) :=
  [("1", "[]"); ("2", encoded (2, "web")); ("3", encoded (3, "db"))].

End MoreScenario.

(** * Theorems *)

Section Runs.

Context (I : LocalJob -> Prop) (P : Event -> Prop).

Lemma runs_ret {A} (a : A) : runs I P (mret a).
Proof.
  intros [j tr] Hj. exists a, j, []. rewrite app_nil_r. by repeat split.
Qed.

Lemma runs_bind {A B} (m : M A) (k : A -> M B) :
  runs I P m -> (forall a, runs I P (k a)) -> runs I P (m ≫= k).
Proof.
  intros Hm Hk s Hs. destruct (Hm s Hs) as (a & j & tr & Em & Hj & Htr).
  destruct (Hk a (mkRunState j (st_trace s ++ tr)) Hj)
    as (b & j' & tr' & Ek & Hj' & Htr').
  exists b, j', (tr ++ tr'). unfold mbind, M_bind. rewrite Em, Ek. cbn.
  rewrite app_assoc. repeat split; [done|]. by apply Forall_app.
Qed.

Lemma runs_getJob_bind {A} (k : LocalJob -> M A) :
  (forall t, I t -> runs I P (k t)) -> runs I P (getJob ≫= k).
Proof. intros Hk [j tr] Hj. exact (Hk j Hj (mkRunState j tr) Hj). Qed.

Lemma runs_modifyJob (f : LocalJob -> LocalJob) :
  (forall j, I j -> I (f j)) -> runs I P (modifyJob f).
Proof.
  intros Hf [j tr] Hj. exists tt, (f j), []. rewrite app_nil_r.
  repeat split; auto.
Qed.

Lemma runs_call {R} (ev : Event) (oracle : list Event -> R) :
  P ev -> runs I P (call ev oracle).
Proof.
  intros Hev [j tr] Hj. exists (oracle tr), j, [ev]. repeat split; auto.
Qed.

Lemma runs_forEach {A} (f : A -> M unit) (xs : list A) :
  (forall x, runs I P (f x)) -> runs I P (forEach f xs).
Proof.
  intros Hf. induction xs as [|x xs IH]; cbn [forEach].
  - apply runs_ret.
  - apply runs_bind; auto.
Qed.

Lemma runs_traces {A} (m : M A) : runs I P m -> traces I P m.
Proof.
  intros Hm s Hs. destruct (Hm s Hs) as (a & j & tr & E & Hj & Htr).
  by exists (Returned a), j, tr.
Qed.

Lemma traces_panic {A} (msg : string) : traces I P (panic msg : M A).
Proof.
  intros [j tr] Hj. exists (Panicked msg), j, []. rewrite app_nil_r.
  by repeat split.
Qed.

Lemma traces_bind {A B} (m : M A) (k : A -> M B) :
  traces I P m -> (forall a, traces I P (k a)) -> traces I P (m ≫= k).
Proof.
  intros Hm Hk s Hs. destruct (Hm s Hs) as ([a|msg] & j & tr & Em & Hj & Htr).
  - destruct (Hk a (mkRunState j (st_trace s ++ tr)) Hj)
      as (b & j' & tr' & Ek & Hj' & Htr').
    exists b, j', (tr ++ tr'). unfold mbind, M_bind. rewrite Em, Ek. cbn.
    rewrite app_assoc. repeat split; [done|]. by apply Forall_app.
  - exists (Panicked msg), j, tr. unfold mbind, M_bind. by rewrite Em.
Qed.

Lemma traces_getJob_bind {A} (k : LocalJob -> M A) :
  (forall t, I t -> traces I P (k t)) -> traces I P (getJob ≫= k).
Proof. intros Hk [j tr] Hj. exact (Hk j Hj (mkRunState j tr) Hj). Qed.

End Runs.


Lemma same_config_stable t0 : stable (same_config t0).
Proof. intros t Ht. repeat split; apply Ht. Qed.

Ltac traces_step :=
  lazymatch goal with
  | |- traces _ _ (mret _) => apply runs_traces, runs_ret
  | |- traces _ _ (panic _) => apply traces_panic
  | |- traces _ _ (getJob ≫= _) => apply traces_getJob_bind; intros ? ?
  | |- traces _ _ (call _ _) => apply runs_traces, runs_call
  | |- traces _ _ (modifyJob _) => apply runs_traces, runs_modifyJob
  | |- traces _ _ (_ ≫= _) => apply traces_bind; [|intros ?]
  | |- traces _ _ (match ?x with _ => _ end) => destruct x eqn:?
  | |- traces _ _ (let _ := _ in _) => cbv zeta
  end.

Ltac runs_step :=
  lazymatch goal with
  | |- runs _ _ (mret _) => apply runs_ret
  | |- runs _ _ (getJob ≫= _) => apply runs_getJob_bind; intros ? ?
  | |- runs _ _ (call _ _) => apply runs_call
  | |- runs _ _ (modifyJob _) => apply runs_modifyJob
  | |- runs _ _ (forEach _ _) => apply runs_forEach; intros ?
  | |- runs _ _ (_ ≫= _) => apply runs_bind; [|intros ?]
  | |- runs _ _ (match ?x with _ => _ end) => destruct x eqn:?
  | |- runs _ _ (let _ := _ in _) => cbv zeta
  end.

Section Prepare.

Variable cfg : Config.
Variable w : World.

Lemma prepareRun_runs (I : LocalJob -> Prop) (P : Event -> Prop) :
  stable I -> (forall e, is_prepare e = true -> P e) ->
  runs I P (prepareRun cfg w).
Proof.
  intros HI HP.
  unfold prepareRun, updateRepository, checkoutRepository, installInventory,
    installVaultKeyFile, Log.
  repeat runs_step;
    first [ by apply HP | by (intros ? ?; apply HI) | idtac ].
Qed.

Lemma prepareRun_local_runs (I : LocalJob -> Prop) (P : Event -> Prop) :
  stable I -> (forall e, is_prepare_local e = true -> P e) ->
  (forall t, I t -> Repository_GetType (job_Repository t) = RepositoryLocal) ->
  runs I P (prepareRun cfg w).
Proof.
  intros HI HP Hlocal.
  unfold prepareRun, installInventory, installVaultKeyFile, Log.
  repeat runs_step;
    first [ by apply HP | by (intros ? ?; apply HI)
          | by (exfalso; match goal with
                  | H : I ?t, E : decide _ = right ?n |- _ =>
                    apply n, Hlocal, H end)
          | idtac ].
Qed.

End Prepare.

(** ** Stepping through a computation *)

Lemma bind_getJob {A} (k : LocalJob -> M A) s :
  (getJob ≫= k) s = k (st_job s) s.
Proof. reflexivity. Qed.

Lemma bind_call {R A} (ev : Event) (oracle : list Event -> R)
    (k : R -> M A) s :
  (call ev oracle ≫= k) s
  = k (oracle (st_trace s)) (mkRunState (st_job s) (st_trace s ++ [ev])).
Proof. reflexivity. Qed.

Lemma bind_ret {A B} (a : A) (k : A -> M B) s : (mret a ≫= k) s = k a s.
Proof. reflexivity. Qed.

Lemma bind_assoc {A B C} (m : M A) (f : A -> M B) (g : B -> M C) s :
  ((m ≫= f) ≫= g) s = (m ≫= (fun a => f a ≫= g)) s.
Proof.
  unfold mbind, M_bind. destruct (m s) as [[a|msg] s']; reflexivity.
Qed.

Lemma run_call {R} (ev : Event) (oracle : list Event -> R) s :
  call ev oracle s
  = (Returned (oracle (st_trace s)),
     mkRunState (st_job s) (st_trace s ++ [ev])).
Proof. reflexivity. Qed.

Lemma run_ret {A} (a : A) s : (mret a : M A) s = (Returned a, s).
Proof. reflexivity. Qed.

Ltac step :=
  repeat first
    [ rewrite bind_assoc | rewrite bind_getJob | rewrite bind_call
    | rewrite bind_ret | rewrite run_call | rewrite run_ret ];
  cbn [st_job st_trace].

Lemma count_app p tr1 tr2 :
  count p (tr1 ++ tr2) = (count p tr1 + count p tr2)%nat.
Proof. unfold count. by rewrite filter_app, length_app. Qed.

Lemma count_Forall_false p tr :
  Forall (fun e => p e = false) tr -> count p tr = 0%nat.
Proof.
  unfold count. induction 1 as [|e tr He _ IH]; [done|].
  rewrite filter_cons_False; [done|]. by rewrite He.
Qed.

Ltac counts :=
  unfold count; cbn; repeat split; first [lia | intros; lia | done | auto].

Ltac norm := step; rewrite <- ?app_assoc; cbn [app].

Lemma bind_run {A B} (m : M A) (k : A -> M B) s a s' :
  m s = (Returned a, s') -> (m ≫= k) s = k a s'.
Proof. intros E. unfold mbind, M_bind. by rewrite E. Qed.

Lemma bind_panicked {A B} (m : M A) (k : A -> M B) s msg s' :
  m s = (Panicked msg, s') -> (m ≫= k) s = (Panicked msg, s').
Proof. intros E. unfold mbind, M_bind. by rewrite E. Qed.

(** C7: [Kill] on a job whose process handle is not set returns and
    leaves the job and the trace as they are; on a job with a process it
    asks for the termination of that process and returns as well, the only
    trace of a termination error being the log entry with its text. *)
Theorem Kill_spec (w : World) (s : RunState) :
  match Process (st_job s) with
  | None => Kill w s = (Returned tt, s)
  | Some p =>
    Kill w s
    = (Returned tt,
       mkRunState (st_job s)
         (st_trace s ++
          EvProcessKill p ::
          match Process_Kill w (st_trace s) p with
          | Some err => [EvLog (Error err)]
          | None => []
          end))
  end.
Proof.
  unfold Kill. rewrite bind_getJob. destruct (Process (st_job s)) as [p|].
  - rewrite bind_call. destruct (Process_Kill w (st_trace s) p) as [err|].
    + unfold Log. rewrite run_call. cbn. by rewrite <- app_assoc.
    + by rewrite run_ret.
  - destruct s; reflexivity.
Qed.

Section Sync.
Variable cfg : Config.
Variable w : World.

(** C8: for a repository of the local kind, [prepareRun] returns having
    made no call to the git client and no removal; once the temporary
    directory is there it calls [os.Stat] on the repository path, and when
    that fails it logs the failure and returns the error at once. *)
Theorem prepareRun_local_repository (s : RunState) :
  Repository_GetType (job_Repository (st_job s)) = RepositoryLocal ->
  let url := Repository_GitURL (job_Repository (st_job s)) in
  let h0 :=
    st_trace s
    ++ [EvLog ("Preparing: " +:+ Itoa (Task_ID (job_Task (st_job s))))] in
  let h := h0 ++ [EvCheckTmpDir (TmpPath cfg)] in
  (exists r j tr,
     prepareRun cfg w s = (Returned r, mkRunState j (st_trace s ++ tr))
     /\ Forall (fun e => is_vcs e = false /\ is_removeAll e = false) tr
     /\ (checkTmpDir w h0 (TmpPath cfg) = None -> EvStat url ∈ tr))
  /\ (forall err,
        checkTmpDir w h0 (TmpPath cfg) = None ->
        os_Stat w h url = Some err ->
        prepareRun cfg w s
        = (Returned (Some err),
           mkRunState (st_job s)
             (h ++ [EvStat url;
                    EvLog ("Failed in finding static repository at " +:+ url
                           +:+ ": " +:+ Error err)]))).
Proof.
  intros Hlocal url h0 h. split.
  - set (I := fun t => same_config (st_job s) t).
    destruct (prepareRun_local_runs cfg w I
                (fun e => is_prepare_local e = true)) with (s := s)
      as (r & j & tr & E & _ & Htr).
    { apply same_config_stable. }
    { auto. }
    { intros t (_ & _ & _ & -> & _). exact Hlocal. }
    { by repeat split. }
    exists r, j, tr. split; [exact E|]. split.
    { eapply Forall_impl; [exact Htr|]. intros e He.
      unfold is_prepare_local in He.
      destruct (is_vcs e), (is_removeAll e); try done;
        by rewrite ?andb_false_r in He. }
    intros Htmp. revert E. unfold prepareRun, Log. step. fold h0.
    rewrite Htmp. rewrite decide_True by exact Hlocal. step.
    fold url h. intros E.
    match type of E with ?m ?s3 = _ =>
      assert (Hruns : runs (fun _ => True) (fun _ => True) m) end.
    { unfold installInventory, installVaultKeyFile, Log.
      repeat runs_step; done. }
    match type of E with _ ?s3 = _ =>
      destruct (Hruns s3 Logic.I) as (r' & j' & tr' & E' & _ & _) end.
    rewrite E' in E. cbn [st_trace] in E. injection E as _ _ Etr.
    unfold h, h0 in Etr.
    rewrite <- !app_assoc in Etr. apply app_inv_head in Etr. subst tr.
    cbn. set_solver.
  - intros err Htmp Hstat. unfold prepareRun, Log. step. fold h0.
    rewrite Htmp. rewrite decide_True by exact Hlocal. step.
    fold url h. rewrite Hstat. step.
    rewrite <- !app_assoc. reflexivity.
Qed.

End Sync.

Section Update.
Variable w : World.

(** C9: [updateRepository] ends in one of four ways.  The working copy
    validates, can be pulled and the pull succeeds: nothing else is done.
    The validation fails because the directory does not exist: the
    repository is cloned, with no removal and no pull.  Otherwise a working
    copy is present (see [stale_copy]) and its directory is removed; when
    the removal succeeds the repository is cloned, and when it fails the
    removal error is returned and nothing is cloned.  Pull is called at most
    once and only on a working copy that validates and can be pulled; clone
    is called at most once. *)
Theorem updateRepository_sync (s : RunState) :
  let h := st_trace s in
  let path :=
    repo_GetFullPath w (Template_ID (job_Template (st_job s)))
      (job_Repository (st_job s)) in
  exists r tr,
    updateRepository w s = (Returned r, mkRunState (st_job s) (h ++ tr))
    /\ ((repo_ValidateRepo w h = None
         /\ repo_CanBePulled w (h ++ [EvValidateRepo]) = true
         /\ repo_Pull w (h ++ [EvValidateRepo; EvCanBePulled]) = None
         /\ tr = [EvValidateRepo; EvCanBePulled; EvPull] /\ r = None)
        \/ (exists err,
              repo_ValidateRepo w h = Some err /\ IsNotExist err = true
              /\ tr = [EvValidateRepo; EvClone]
              /\ r = repo_Clone w (h ++ [EvValidateRepo]))
        \/ (exists pre,
              stale_copy w h pre
              /\ os_RemoveAll w (h ++ pre) path = None
              /\ tr = pre ++ [EvRemoveAll path; EvClone]
              /\ r = repo_Clone w (h ++ pre ++ [EvRemoveAll path]))
        \/ (exists pre err,
              stale_copy w h pre
              /\ os_RemoveAll w (h ++ pre) path = Some err
              /\ tr = pre ++ [EvRemoveAll path]
              /\ r = Some err))
    /\ (count is_pull tr <= 1)%nat
    /\ (count is_pull tr = 1%nat ->
        repo_ValidateRepo w h = None
        /\ repo_CanBePulled w (h ++ [EvValidateRepo]) = true)
    /\ (count is_clone tr <= 1)%nat.
Proof.
  intros h path. unfold updateRepository. step. fold h path.
  destruct (repo_ValidateRepo w h) as [err|] eqn:Ev.
  - destruct (IsNotExist err) eqn:Ene; cbn [negb]; norm.
    + eexists _, _. split; [reflexivity|]. split; [|counts].
      right; left. by exists err.
    + destruct (os_RemoveAll w (h ++ [EvValidateRepo]) path) as [err'|] eqn:Er;
        norm; eexists _, _; (split; [reflexivity|]); (split; [|counts]).
      * do 3 right. exists [EvValidateRepo], err'. repeat split; [|done].
        left. by exists err.
      * do 2 right; left. exists [EvValidateRepo]. repeat split; [|done].
        left. by exists err.
  - norm. destruct (repo_CanBePulled w (h ++ [EvValidateRepo])) eqn:Ec; norm.
    + destruct (repo_Pull w (h ++ [EvValidateRepo; EvCanBePulled]))
        as [err|] eqn:Ep.
      * rewrite bool_decide_false by done. norm.
        destruct (os_RemoveAll w (h ++ [EvValidateRepo; EvCanBePulled; EvPull])
                    path) as [err'|] eqn:Er;
          norm; eexists _, _; (split; [reflexivity|]); (split; [|counts]).
        -- do 3 right. exists [EvValidateRepo; EvCanBePulled; EvPull], err'.
           repeat split; [|done]. right; right. rewrite Ep. by repeat split.
        -- do 2 right; left. exists [EvValidateRepo; EvCanBePulled; EvPull].
           repeat split; [|done]. right; right. rewrite Ep. by repeat split.
      * rewrite bool_decide_true by done. norm. eexists _, _.
        split; [reflexivity|]. split; [|counts]. left. by repeat split.
    + destruct (os_RemoveAll w (h ++ [EvValidateRepo; EvCanBePulled]) path)
        as [err'|] eqn:Er;
        norm; eexists _, _; (split; [reflexivity|]); (split; [|counts]).
      * do 3 right. exists [EvValidateRepo; EvCanBePulled], err'.
        repeat split; [|done]. right; left. by repeat split.
      * do 2 right; left. exists [EvValidateRepo; EvCanBePulled].
        repeat split; [|done]. right; left. by repeat split.
Qed.
End Update.

(** ** The command line *)

Section Args.

Variable cfg : Config.
Variable json : JsonCodec.

Lemma string_app_assoc (a b c : string) : (a +:+ b) +:+ c = a +:+ b +:+ c.
Proof.
  induction a as [|x a IH]; [done|].
  change (String x ((a +:+ b) +:+ c) = String x (a +:+ b +:+ c)).
  by rewrite IH.
Qed.

Lemma inventoryOf_spec t : inventoryOf cfg t = spec_inventoryArg cfg t.
Proof.
  unfold inventoryOf, spec_inventoryArg.
  destruct (Inventory_Type (job_Inventory t)); try reflexivity.
  cbn. by rewrite !string_app_assoc.
Qed.

Lemma appendSSHKeyArgs_spec t args args' :
  appendSSHKeyArgs t args = inr args' -> args' = args ++ spec_loginExtras t.
Proof.
  unfold appendSSHKeyArgs, spec_loginExtras.
  destruct (Inventory_SSHKeyID (job_Inventory t)),
    (AccessKey_Type (Inventory_SSHKey (job_Inventory t)));
    repeat case_decide; intros [= <-]; rewrite ?app_nil_r; congruence.
Qed.

Lemma appendBecomeKeyArgs_spec t args args' :
  appendBecomeKeyArgs t args = inr args' ->
  args' = args ++ spec_becomeExtras t.
Proof.
  unfold appendBecomeKeyArgs, spec_becomeExtras.
  destruct (Inventory_BecomeKeyID (job_Inventory t)),
    (AccessKey_Type (Inventory_BecomeKey (job_Inventory t)));
    intros [= <-]; by rewrite ?app_nil_r.
Qed.

Lemma appendFlags_spec t args :
  appendFlags t args = args ++ spec_flagArgs t ++ spec_vaultArgs t.
Proof.
  unfold appendFlags, spec_flagArgs, spec_vaultArgs.
  destruct (Task_Debug (job_Task t)), (Task_Diff (job_Task t)),
    (Task_DryRun (job_Task t)), (Template_VaultKeyID (job_Template t));
    cbn; by rewrite <- ?app_assoc, ?app_nil_r.
Qed.

(** The two payload constructions panic on the same environments, and
    with the same message. *)
Lemma getEnvironmentExtraVars_panics username incomingVersion t msg :
  getEnvironmentExtraVars json username incomingVersion t = Panicked msg
  <-> msg = "assignment to entry in nil map" /\ nil_environment json t.
Proof.
  unfold getEnvironmentExtraVars, nil_environment. case_decide as Hne.
  - destruct (unmarshal_object json _) as [e|[m0|]]; split;
      try done; try (by intros [_ [_ [=]]]).
    + by intros [= <-].
    + by intros [-> _].
  - split; [done|]. by intros [_ [? _]].
Qed.

Lemma getEnvironmentExtraVarsJSON_panics username incomingVersion t msg :
  getEnvironmentExtraVarsJSON json username incomingVersion t = Panicked msg
  <-> msg = "assignment to entry in nil map" /\ nil_environment json t.
Proof.
  unfold getEnvironmentExtraVarsJSON, nil_environment. case_decide as Hne.
  - destruct (unmarshal_object json _) as [e|[m0|]]; cbv zeta;
      try destruct (marshal json _); split;
      try done; try (by intros [_ [_ [=]]]).
    + by intros [= <-].
    + by intros [-> _].
  - cbv zeta. destruct (marshal json _); split; try done;
      by intros [_ [? _]].
Qed.

(** The block on the extra variables passes on the panic of the payload
    construction; otherwise it returns, logs at most, and leaves in [err]
    the error of the payload construction. *)
Lemma appendExtraVars_spec username incomingVersion t args s :
  match getEnvironmentExtraVarsJSON json username incomingVersion t with
  | Panicked msg =>
    appendExtraVars json username incomingVersion t args s = (Panicked msg, s)
  | Returned r =>
    exists logs,
      appendExtraVars json username incomingVersion t args s
      = (Returned
           (args ++ spec_payloadArgs json username incomingVersion t,
            match r with
            | inl err => Some err
            | inr _ => None
            end),
         mkRunState (st_job s) (st_trace s ++ logs))
      /\ Forall (fun e => exists msg, e = EvLog msg) logs
  end.
Proof.
  unfold appendExtraVars, spec_payloadArgs.
  destruct (getEnvironmentExtraVarsJSON json username incomingVersion t)
    as [[err|payload]|msg].
  - unfold Log. norm. rewrite app_nil_r. eexists. split; [reflexivity|].
    repeat constructor; eauto.
  - exists []. split; [|constructor]. destruct s as [j tr].
    cbn [st_job st_trace].
    repeat case_decide; try congruence; by rewrite ?app_nil_r.
  - reflexivity.
Qed.

Lemma parseTemplateArguments_spec t err l err' :
  parseTemplateArguments json t err = inr (l, err') ->
  l = spec_templateLevelArgs json t
  /\ err' = match Template_Arguments (job_Template t) with
            | Some _ => None
            | None => err
            end.
Proof.
  unfold parseTemplateArguments, spec_templateLevelArgs.
  destruct (Template_Arguments (job_Template t)) as [a|];
    [destruct (unmarshal_strings json a)|]; by intros [= <- <-].
Qed.

Lemma parseTaskArguments_spec t err l err' :
  parseTaskArguments json t err = inr (l, err') ->
  l = (if Template_AllowOverrideArgsInTask (job_Template t)
       then match Task_Arguments (job_Task t) with
            | Some a =>
              match unmarshal_strings json a with
              | inr l => l
              | inl _ => []
              end
            | None => []
            end
       else [])
  /\ err' = (if Template_AllowOverrideArgsInTask (job_Template t)
             then match Task_Arguments (job_Task t) with
                  | Some _ => None
                  | None => err
                  end
             else err).
Proof.
  unfold parseTaskArguments.
  destruct (Template_AllowOverrideArgsInTask (job_Template t));
    [destruct (Task_Arguments (job_Task t)) as [a|];
     [destruct (unmarshal_strings json a)|]|]; by intros [= <- <-].
Qed.

Lemma appendLimit_spec t l s :
  exists logs,
    appendLimit t l s
    = (Returned
         (l ++ if decide (Task_Limit (job_Task t) = "") then []
               else ["--limit=" +:+ Task_Limit (job_Task t)]),
       mkRunState (st_job s) (st_trace s ++ logs))
    /\ Forall (fun e => exists msg, e = EvLog msg) logs.
Proof.
  unfold appendLimit. repeat case_decide; try congruence.
  - unfold Log. norm. eexists. split; [reflexivity|].
    repeat constructor; eauto.
  - exists []. destruct s as [j tr]. cbn [st_job st_trace].
    rewrite !app_nil_r. by split.
Qed.

(** The result of [getPlaybookArgs], block by block: the vector after the
    inventory flag is the one the specification lists whenever no error is
    returned, and the returned error is the one a block left in [err].  The
    one panic is that of the payload construction, which leaves the state
    as it was. *)
Lemma getPlaybookArgs_shape username incomingVersion s :
  match spec_inventoryArg cfg (st_job s) with
  | inl err =>
    getPlaybookArgs cfg json username incomingVersion s
    = (Returned ([], Some err), s)
  | inr inventory =>
    (exists rest err logs,
       getPlaybookArgs cfg json username incomingVersion s
       = (Returned ("-i" :: inventory :: rest, err),
          mkRunState (st_job s) (st_trace s ++ logs))
       /\ Forall (fun e => exists msg, e = EvLog msg) logs
       /\ (err = None ->
           rest
           = spec_argsAfterInventory json username incomingVersion (st_job s)
           /\ ((exists e,
                  getEnvironmentExtraVarsJSON json username incomingVersion
                    (st_job s) = Returned (inl e)) ->
               is_Some (Template_Arguments (job_Template (st_job s)))
               \/ (Template_AllowOverrideArgsInTask (job_Template (st_job s))
                   = true
                   /\ is_Some (Task_Arguments (job_Task (st_job s)))))))
    \/ (getPlaybookArgs cfg json username incomingVersion s
        = (Panicked "assignment to entry in nil map", s)
        /\ nil_environment json (st_job s))
  end.
Proof.
  unfold getPlaybookArgs. rewrite bind_getJob. cbv zeta.
  rewrite inventoryOf_spec.
  destruct (spec_inventoryArg cfg (st_job s)) as [err|inventory];
    [reflexivity|].
  set (t := st_job s).
  destruct (appendSSHKeyArgs t ["-i"; inventory]) as [err|args1] eqn:E1.
  { left. exists [], (Some err), []. rewrite app_nil_r. destruct s.
    by repeat split. }
  apply appendSSHKeyArgs_spec in E1. subst args1.
  destruct (appendBecomeKeyArgs t _) as [err|args2] eqn:E2.
  { left. eexists _, (Some err), []. rewrite app_nil_r. destruct s.
    by repeat split. }
  apply appendBecomeKeyArgs_spec in E2. subst args2.
  rewrite appendFlags_spec.
  match goal with |- context [appendExtraVars json _ _ t ?a] =>
    pose proof (appendExtraVars_spec username incomingVersion t a s)
      as E3 end.
  destruct (getEnvironmentExtraVarsJSON json username incomingVersion t)
    as [r|msg] eqn:Epayload.
  2:{ right. apply getEnvironmentExtraVarsJSON_panics in Epayload as [-> ?].
      split; [|done]. by rewrite (bind_panicked _ _ _ _ _ E3). }
  left. destruct E3 as (logs1 & E3 & Hlogs1).
  rewrite (bind_run _ _ _ _ _ E3). cbv beta iota.
  destruct (parseTemplateArguments json t _) as [err|[targs err1]] eqn:E4.
  { unfold Log. norm. eexists _, (Some err), _.
    split; [reflexivity|]. split; [|done].
    apply Forall_app. split; [done|]. repeat constructor; eauto. }
  apply parseTemplateArguments_spec in E4 as [-> ->].
  destruct (parseTaskArguments json t _) as [err|[kargs err2]] eqn:E5.
  { unfold Log. norm. eexists _, (Some err), _.
    split; [reflexivity|]. split; [|done].
    apply Forall_app. split; [done|]. repeat constructor; eauto. }
  apply parseTaskArguments_spec in E5 as [-> ->].
  match goal with |- context [appendLimit t ?l] =>
    destruct (appendLimit_spec t l
                (mkRunState (st_job s) (st_trace s ++ logs1)))
      as (logs2 & E6 & Hlogs2) end.
  rewrite (bind_run _ _ _ _ _ E6). cbv beta iota zeta. rewrite run_ret.
  cbn [st_job st_trace]. rewrite <- !app_assoc. cbn [app].
  eexists _, _, _. split; [reflexivity|].
  split; [by apply Forall_app|]. intros Herr. split.
  { unfold spec_argsAfterInventory, spec_taskLevelArgs, spec_playbookPath.
    rewrite <- !app_assoc. reflexivity. }
  intros [e [= ->]]. revert Herr.
  destruct (Template_Arguments (job_Template t)); [by left; eexists|].
  destruct (Template_AllowOverrideArgsInTask (job_Template t)); [|done].
  destruct (Task_Arguments (job_Task t)); [|done].
  intros _. right. split; [done|by eexists].
Qed.


(** C4: the inventory argument that [getPlaybookArgs] builds is
    [<TmpPath>/inventory_<Task.ID>] for a static inventory, the same with
    the suffix [.yml] for a static YAML inventory, and the stored path for
    a file inventory: whenever the function returns, with an error or
    without one, its vector begins with [-i] and that argument, and it
    returns unless the environment text decodes to the nil map, in which
    case the assignment of [semaphore_vars] may panic after the argument
    was built.  For any other kind [getPlaybookArgs] returns the error
    "invalid invetory type" with no argument built, nothing logged and no
    panic. *)
Theorem getPlaybookArgs_inventory username incomingVersion s :
  let t := st_job s in
  let built (inventory : string) : Prop :=
    inventoryOf cfg t = inr inventory
    /\ ((exists rest err s',
           getPlaybookArgs cfg json username incomingVersion s
           = (Returned ("-i" :: inventory :: rest, err), s'))
        \/ (getPlaybookArgs cfg json username incomingVersion s
            = (Panicked "assignment to entry in nil map", s)
            /\ nil_environment json t)) in
  match Inventory_Type (job_Inventory t) with
  | InventoryStatic =>
    built (TmpPath cfg +:+ "/inventory_" +:+ Itoa (Task_ID (job_Task t)))
  | InventoryStaticYaml =>
    built (TmpPath cfg +:+ "/inventory_" +:+ Itoa (Task_ID (job_Task t))
           +:+ ".yml")
  | InventoryFile => built (Inventory_Inventory (job_Inventory t))
  | InventoryOther _ =>
    getPlaybookArgs cfg json username incomingVersion s
    = (Returned ([], Some (Errorf "invalid invetory type")), s)
  end.
Proof.
  intros t built.
  pose proof (getPlaybookArgs_shape username incomingVersion s) as H.
  pose proof (inventoryOf_spec t) as Hinv.
  unfold spec_inventoryArg in H, Hinv. fold t in H.
  destruct (Inventory_Type (job_Inventory t)); [| | |exact H];
    (split; [exact Hinv|]);
    (destruct H as [(rest & err & logs & E & _)|H]; [left; eauto|by right]).
Qed.

(** C5: when [getPlaybookArgs] returns without error, the vector is the
    inventory flag followed, in this order, by the login extras, the become
    extras, [-vvvv], [--diff], [--check], the vault password file, the
    payload, the template arguments, the task arguments with the limit, and
    the playbook, each as the specification describes it; the playbook is
    the last element. *)
Theorem getPlaybookArgs_order username incomingVersion s args s' :
  getPlaybookArgs cfg json username incomingVersion s
  = (Returned (args, None), s') ->
  let t := st_job s in
  exists inventory,
    spec_inventoryArg cfg t = inr inventory
    /\ args
       = ["-i"; inventory]
         ++ spec_loginExtras t ++ spec_becomeExtras t
         ++ spec_flagArgs t ++ spec_vaultArgs t
         ++ spec_payloadArgs json username incomingVersion t
         ++ spec_templateLevelArgs json t ++ spec_taskLevelArgs json t
         ++ [spec_playbookPath t]
    /\ last args = Some (spec_playbookPath t).
Proof.
  intros E t.
  pose proof (getPlaybookArgs_shape username incomingVersion s) as H.
  fold t in H. destruct (spec_inventoryArg cfg t) as [err|inventory].
  { rewrite E in H. discriminate. }
  destruct H as [(rest & err & logs & E' & _ & Hrest)|[E' _]];
    rewrite E in E'; [|discriminate].
  injection E' as -> <- _. destruct (Hrest eq_refl) as [-> _].
  exists inventory. split; [done|]. split; [done|].
  unfold spec_argsAfterInventory.
  change ("-i" :: inventory :: ?l) with (["-i"; inventory] ++ l).
  rewrite !app_assoc. apply last_snoc.
Qed.


End Args.

(** ** The run *)

Section RunTheory.

Variable cfg : Config.
Variable json : JsonCodec.
Variable w : World.

Lemma bind_Log {A} (msg : string) (k : unit -> M A) s :
  (Log msg ≫= k) s
  = k tt (mkRunState (st_job s) (st_trace s ++ [EvLog msg])).
Proof. reflexivity. Qed.

Lemma forEach_Log_run (errs : list error) s :
  forEach (fun err => Log (Error err)) errs s
  = (Returned tt,
     mkRunState (st_job s)
       (st_trace s ++ map (fun err => EvLog (Error err)) errs)).
Proof.
  revert s. induction errs as [|err errs IH]; intros s; cbn [forEach map].
  - rewrite app_nil_r. by destruct s.
  - change
      ((Log (Error err) ≫= fun _ => forEach (fun e => Log (Error e)) errs) s
       = (Returned tt,
          mkRunState (st_job s)
            (st_trace s
             ++ EvLog (Error err) :: map (fun e => EvLog (Error e)) errs))).
    rewrite bind_Log, IH. cbn [st_job st_trace].
    by rewrite <- app_assoc.
Qed.

Lemma destroyKeys_run s :
  destroyKeys w s
  = (Returned tt,
     mkRunState (st_job s)
       (st_trace s ++
        EvDestroyKeys (sshKeyInstallation (st_job s))
          (becomeKeyInstallation (st_job s))
          (vaultFileInstallation (st_job s))
        :: map (fun err => EvLog (Error err))
             (Installations_Destroy w (st_trace s)))).
Proof.
  unfold destroyKeys. rewrite bind_getJob, bind_call, forEach_Log_run.
  cbn [st_job st_trace]. by rewrite <- app_assoc.
Qed.

Lemma getPlaybookArgs_traces (I : LocalJob -> Prop) (P : Event -> Prop)
    username incomingVersion :
  (forall msg, P (EvLog msg)) ->
  traces I P (getPlaybookArgs cfg json username incomingVersion).
Proof.
  intros HP. unfold getPlaybookArgs, appendExtraVars, appendLimit, Log.
  repeat traces_step; auto.
Qed.

(** [Run] by the outcome of the preparation. *)
Lemma Run_prepare username incomingVersion s :
  exists r j tr,
    prepareRun cfg w (entered s)
    = (Returned r, mkRunState j (st_trace (entered s) ++ tr))
    /\ same_config (st_job s) j
    /\ Forall (fun e => is_prepare e = true) tr
    /\ match r with
       | Some err =>
         Run cfg json w username incomingVersion s
         = (Returned (Some err), mkRunState j (st_trace (entered s) ++ tr))
       | None =>
         exists out s2,
           Run cfg json w username incomingVersion s
           = (out, snd (destroyKeys w s2))
           /\ match Template_App (job_Template (st_job s)) with
              | TemplateAnsible =>
                exists tr2,
                  st_trace s2 = (st_trace (entered s) ++ tr) ++ tr2
                  /\ Forall (fun e => is_destroyKeys e = false) tr2
              | TemplateAppOther _ =>
                out = Panicked "unknown template app"
                /\ s2 = mkRunState j (st_trace (entered s) ++ tr)
              end
       end.
Proof.
  destruct (prepareRun_runs cfg w (same_config (st_job s))
              (fun e => is_prepare e = true)) with (s := entered s)
    as (r & j & tr & E & Hj & Htr).
  { apply same_config_stable. }
  { auto. }
  { by repeat split. }
  exists r, j, tr. split; [exact E|]. split; [exact Hj|]. split; [exact Htr|].
  unfold Run, SetStatus. rewrite bind_call. fold (entered s).
  rewrite (bind_run _ _ _ _ _ E). destruct r as [err|]; [reflexivity|].
  unfold defer. rewrite bind_getJob. cbn [st_job].
  destruct Hj as (_ & -> & _).
  destruct (Template_App (job_Template (st_job s))) eqn:Eapp.
  - match goal with |- context [match ?m ?s1 with _ => _ end] =>
      assert (Hruns : traces (fun _ => True)
                        (fun e => is_destroyKeys e = false) m);
      [|destruct (Hruns s1 Logic.I) as (r2 & j2 & tr2 & E2 & _ & Htr2)]
    end.
    { unfold Log. repeat traces_step; auto.
      apply getPlaybookArgs_traces. auto. }
    rewrite E2. eexists _, _. split; [reflexivity|].
    exists tr2. by split.
  - eexists _, _. split; [reflexivity|]. by split.
Qed.


Lemma count_single p e : count p [e] = if p e then 1%nat else 0%nat.
Proof. unfold count. cbn. by destruct (p e). Qed.

Lemma count_logs p (errs : list error) :
  (forall msg, p (EvLog msg) = false) ->
  count p (map (fun err => EvLog (Error err)) errs) = 0%nat.
Proof.
  intros Hp. apply count_Forall_false, Forall_forall.
  intros e (err & -> & _)%list_elem_of_fmap. apply Hp.
Qed.

Lemma count_prepare p tr :
  (forall e, is_prepare e = true -> p e = false) ->
  Forall (fun e => is_prepare e = true) tr -> count p tr = 0%nat.
Proof.
  intros Hp Htr. apply count_Forall_false.
  eapply Forall_impl; [exact Htr|]. exact Hp.
Qed.

(** X1: the cleanup runs once when the preparation succeeded, whether the
    rest returns or panics, and not at all when the preparation failed. *)
Lemma Run_destroyKeys_count username incomingVersion s :
  exists r s1,
    prepareRun cfg w (entered s) = (Returned r, s1)
    /\ count is_destroyKeys
         (st_trace (snd (Run cfg json w username incomingVersion s)))
       = (count is_destroyKeys (st_trace s)
          + match r with Some _ => 0 | None => 1 end)%nat.
Proof.
  destruct (Run_prepare username incomingVersion s)
    as (r & j & tr & E & Hj & Htr & HRun).
  eexists r, _. split; [exact E|].
  assert (count is_destroyKeys tr = 0%nat) as Htr0.
  { apply count_prepare; [|done]. by intros []. }
  destruct r as [err|].
  - rewrite HRun. cbn [snd st_trace entered].
    rewrite !count_app, Htr0. rewrite ?count_single; cbn; lia.
  - destruct HRun as (out & s2 & -> & Happ). cbn [snd].
    rewrite destroyKeys_run. cbn [snd st_trace].
    rewrite count_app.
    change (?e :: map ?f ?l) with ([e] ++ map f l).
    rewrite count_app, count_logs by done.
    destruct (Template_App (job_Template (st_job s))).
    + destruct Happ as (tr2 & -> & Htr2).
      rewrite !count_app, Htr0, (count_Forall_false _ _ Htr2).
      cbn [entered st_trace]. rewrite count_app.
      rewrite ?count_single; cbn; lia.
    + destruct Happ as [_ ->]. cbn [st_trace entered].
      rewrite !count_app, Htr0. rewrite ?count_single; cbn; lia.
Qed.

(** C2: for a template whose application is not the playbook engine,
    [Run] returns the error of the preparation when the preparation fails,
    and otherwise panics with "unknown template app", after which the
    deferred cleanup runs; in neither case is the application run. *)
Theorem Run_unsupported_app username incomingVersion s :
  Template_App (job_Template (st_job s)) <> TemplateAnsible ->
  exists r s1,
    prepareRun cfg w (entered s) = (Returned r, s1)
    /\ match r with
       | Some err =>
         Run cfg json w username incomingVersion s = (Returned (Some err), s1)
       | None =>
         Run cfg json w username incomingVersion s
         = (Panicked "unknown template app", snd (destroyKeys w s1))
       end
    /\ count is_appRun
         (st_trace (snd (Run cfg json w username incomingVersion s)))
       = count is_appRun (st_trace s).
Proof.
  intros Happ.
  destruct (Run_prepare username incomingVersion s)
    as (r & j & tr & E & Hj & Htr & HRun).
  eexists r, _. split; [exact E|].
  assert (count is_appRun tr = 0%nat) as Htr0.
  { apply count_prepare; [|done]. by intros []. }
  destruct r as [err|].
  - split; [exact HRun|]. rewrite HRun. cbn [snd st_trace entered].
    rewrite !count_app, Htr0. rewrite ?count_single; cbn; lia.
  - destruct HRun as (out & s2 & HRun & Hout).
    destruct (Template_App (job_Template (st_job s))); [done|].
    destruct Hout as [-> ->]. split; [exact HRun|]. rewrite HRun.
    rewrite destroyKeys_run. cbn [snd st_trace entered].
    change (?e :: map ?f ?l) with ([e] ++ map f l).
    rewrite !count_app, Htr0, count_logs by done.
    rewrite ?count_single; cbn; lia.
Qed.

End RunTheory.


(** ** The extra-variables payload *)

Section Payload.

Variable json : JsonCodec.

(** C6: for every user name, incoming version, task and template, and
    every environment that is empty or decodes to an object [m0], the
    payload is the encoding of [m0] with [semaphore_vars] set to an object
    holding [task_details], in which [id] is the task id, [username] the
    user name, [message] is present exactly when the task message is not
    empty and is then the message, [type] is present exactly when the
    template is not of the plain task kind, [incoming_version] exactly when
    moreover the caller supplied one, and [target_version] exactly for the
    build kind, where it is the task version. *)
Theorem extraVars_task_details username incomingVersion t m0 :
  (Environment_JSON (job_Environment t) = "" /\ m0 = ∅
   \/ Environment_JSON (job_Environment t) <> ""
      /\ unmarshal_object json (Environment_JSON (job_Environment t))
         = inr (Some m0)) ->
  exists td : gmap string JValue,
    getEnvironmentExtraVarsJSON json username incomingVersion t
    = Returned
        (marshal json
           (JObject
              (<["semaphore_vars" := JObject {["task_details" := JObject td]}]>
                 m0)))
    /\ task_details_as_specified username incomingVersion t td.
Proof.
  intros Henv. unfold getEnvironmentExtraVarsJSON, task_details_as_specified.
  assert ((if decide (Environment_JSON (job_Environment t) <> "")
           then unmarshal_object json (Environment_JSON (job_Environment t))
           else inr (Some ∅)) = inr (Some m0)) as ->.
  { destruct Henv as [[-> ->]|[Hne ->]]; [done|]. by rewrite decide_True. }
  eexists. split.
  { destruct (marshal json _) eqn:E; rewrite <- E; reflexivity. }
  destruct (Template_Type (job_Template t)), incomingVersion,
    (decide (Task_Message (job_Task t) = "")) as [->|?]; simpl;
    repeat (case_decide; try done); simplify_map_eq; done.
Qed.

(** C10: on every input, [getEnvironmentExtraVarsJSON] fails with the
    error [getEnvironmentExtraVars] fails with, and where the latter
    returns a map the former returns the encoding of that map; where the
    latter panics, on a nil map, so does the former, with the same
    message. *)
Theorem getEnvironmentExtraVarsJSON_marshals username incomingVersion t :
  match getEnvironmentExtraVars json username incomingVersion t with
  | Returned (inl err) =>
    getEnvironmentExtraVarsJSON json username incomingVersion t
    = Returned (inl err)
  | Returned (inr extraVars) =>
    exists str,
      marshal json (JObject extraVars) = inr str
      /\ getEnvironmentExtraVarsJSON json username incomingVersion t
         = Returned (inr str)
  | Panicked msg =>
    getEnvironmentExtraVarsJSON json username incomingVersion t = Panicked msg
  end.
Proof.
  unfold getEnvironmentExtraVars, getEnvironmentExtraVarsJSON.
  destruct (if decide (Environment_JSON (job_Environment t) <> "")
            then unmarshal_object json (Environment_JSON (job_Environment t))
            else inr (Some ∅)) as [err|[extraVars|]]; [reflexivity| |reflexivity].
  cbv zeta.
  match goal with |- context [marshal json ?v] =>
    destruct (marshal_total json v) as [str E] end.
  exists str. by rewrite E.
Qed.

End Payload.

(** ** The scenario, run *)

Lemma extraVars_task_details_witness :
  exists td : gmap string JValue,
    getEnvironmentExtraVarsJSON RefJson.codec "admin" (Some "1.3.9")
      Scenario.buildJob
    = Returned
        (marshal RefJson.codec
           (JObject
              (<["semaphore_vars" := JObject {["task_details" := JObject td]}]>
                 {["region" := JInt 3]})))
    /\ task_details_as_specified "admin" (Some "1.3.9") Scenario.buildJob td.
Proof.
  apply (extraVars_task_details RefJson.codec "admin" (Some "1.3.9")
           Scenario.buildJob {["region" := JInt 3]}).
  right. split; [discriminate|]. vm_compute. reflexivity.
Defined.

(** C1: the cleanup does not run on every exit of [Run].  The inventory
    refers to a login key, the key is installed by [installInventory], the
    installation of the requirements then fails: [Run] returns that error
    with one key installed and without a single call of [destroyKeys],
    because the [defer] is only reached after a successful preparation. *)
Theorem Run_prepare_failure_skips_destroyKeys :
  let out :=
    Run Scenario.config RefJson.codec Scenario.galaxyFails "admin" None
      (Scenario.start Scenario.job) in
  fst out = Returned (Some Scenario.galaxyError)
  /\ count is_installKey (st_trace (snd out)) = 1%nat
  /\ sshKeyInstallation (st_job (snd out)) = Scenario.installed
  /\ count is_destroyKeys (st_trace (snd out)) = 0%nat.
Proof. vm_compute. by repeat split. Qed.

(** A template of another application, with every collaborator
    succeeding: [Run] does not return an error, it panics. *)
Lemma Run_unknown_app_panics :
  fst (Run Scenario.config RefJson.codec Scenario.quietWorld "admin" None
         (Scenario.start Scenario.terraformJob))
  = Panicked "unknown template app".
Proof. vm_compute. reflexivity. Qed.

Lemma Run_unsupported_app_witness :
  exists r s1,
    prepareRun Scenario.config Scenario.quietWorld
      (entered (Scenario.start Scenario.terraformJob))
    = (Returned r, s1)
    /\ match r with
       | Some err =>
         Run Scenario.config RefJson.codec Scenario.quietWorld "admin" None
           (Scenario.start Scenario.terraformJob)
         = (Returned (Some err), s1)
       | None =>
         Run Scenario.config RefJson.codec Scenario.quietWorld "admin" None
           (Scenario.start Scenario.terraformJob)
         = (Panicked "unknown template app",
            snd (destroyKeys Scenario.quietWorld s1))
       end
    /\ count is_appRun
         (st_trace
            (snd (Run Scenario.config RefJson.codec Scenario.quietWorld
                    "admin" None (Scenario.start Scenario.terraformJob))))
       = count is_appRun (st_trace (Scenario.start Scenario.terraformJob)).
Proof.
  apply (Run_unsupported_app Scenario.config RefJson.codec Scenario.quietWorld
           "admin" None (Scenario.start Scenario.terraformJob)).
  vm_compute. discriminate.
Defined.

(** C3: an environment that is not valid JSON and a template without
    arguments of its own.  The payload cannot be built; [getPlaybookArgs]
    logs that this is not fatal and builds the whole vector without the
    payload, but returns the decoding error, and [Run] returns it without
    starting the process. *)
Theorem getPlaybookArgs_payload_error_escapes :
  let s := Scenario.start Scenario.brokenEnvironmentJob in
  getEnvironmentExtraVarsJSON RefJson.codec "admin" None
    Scenario.brokenEnvironmentJob
  = Returned (inl RefJson.syntaxError)
  /\ fst (getPlaybookArgs Scenario.config RefJson.codec "admin" None s)
     = Returned
         (["-i"; "/tmp/semaphore/inventory_42.yml";
           "--extra-vars={" +:+ dquote +:+ "ansible_user" +:+ dquote +:+ ": "
           +:+ dquote +:+ "deploy" +:+ dquote +:+ "}";
           "--limit=web*"; "site.yml"],
          Some RefJson.syntaxError)
  /\ fst (Run Scenario.config RefJson.codec Scenario.quietWorld "admin" None s)
     = Returned (Some RefJson.syntaxError)
  /\ count is_appRun
       (st_trace
          (snd (Run Scenario.config RefJson.codec Scenario.quietWorld "admin"
                  None s)))
     = 0%nat.
Proof. vm_compute. by repeat split. Qed.

Lemma getPlaybookArgs_order_witness :
  exists args s',
    getPlaybookArgs Scenario.config RefJson.codec "admin" None
      (Scenario.start Scenario.job)
    = (Returned (args, None), s')
    /\ exists inventory,
         spec_inventoryArg Scenario.config Scenario.job = inr inventory
         /\ args
            = ["-i"; inventory]
              ++ spec_loginExtras Scenario.job
              ++ spec_becomeExtras Scenario.job
              ++ spec_flagArgs Scenario.job ++ spec_vaultArgs Scenario.job
              ++ spec_payloadArgs RefJson.codec "admin" None Scenario.job
              ++ spec_templateLevelArgs RefJson.codec Scenario.job
              ++ spec_taskLevelArgs RefJson.codec Scenario.job
              ++ [spec_playbookPath Scenario.job]
         /\ last args = Some (spec_playbookPath Scenario.job).
Proof.
  eexists _, _. split; [vm_compute; reflexivity|].
  eapply (getPlaybookArgs_order Scenario.config RefJson.codec "admin" None
            (Scenario.start Scenario.job)).
  vm_compute. reflexivity.
Defined.

Lemma prepareRun_local_repository_witness :
  exists r j tr,
    prepareRun Scenario.config Scenario.quietWorld
      (Scenario.start Scenario.localJob)
    = (Returned r, mkRunState j tr)
    /\ Forall (fun e => is_vcs e = false /\ is_removeAll e = false) tr
    /\ EvStat "/srv/playbooks" ∈ tr.
Proof.
  destruct (prepareRun_local_repository Scenario.config Scenario.quietWorld
              (Scenario.start Scenario.localJob) eq_refl)
    as [(r & j & tr & E & Htr & Hstat) _].
  exists r, j, tr. split; [exact E|]. split; [exact Htr|].
  apply Hstat. reflexivity.
Defined.

(** A working copy that does not validate, in a directory that cannot be
    removed: this is one of the cases other than a successful pull, and
    [updateRepository] returns the removal error without cloning. *)
Lemma updateRepository_removal_failure_no_clone :
  let out :=
    updateRepository Scenario.removalFails (Scenario.start Scenario.job) in
  repo_ValidateRepo Scenario.removalFails [] = Some Scenario.staleError
  /\ fst out = Returned (Some Scenario.removeError)
  /\ count is_pull (st_trace (snd out)) = 0%nat
  /\ count is_clone (st_trace (snd out)) <> 1%nat.
Proof. vm_compute. by repeat split. Qed.

(** * More of the package *)

(** ** Strings as lists of characters *)

Lemma list_ascii_of_string_app (a b : string) :
  list_ascii_of_string (a +:+ b)
  = list_ascii_of_string a ++ list_ascii_of_string b.
Proof.
  induction a as [|c a IH]; [done|].
  change (c :: list_ascii_of_string (a +:+ b)
          = c :: list_ascii_of_string a ++ list_ascii_of_string b).
  by rewrite IH.
Qed.

Lemma list_ascii_of_string_inj (a b : string) :
  list_ascii_of_string a = list_ascii_of_string b -> a = b.
Proof.
  intros E. rewrite <- (string_of_list_ascii_of_string a),
    <- (string_of_list_ascii_of_string b). by rewrite E.
Qed.

Lemma string_app_inv_tail (a b x : string) : a +:+ x = b +:+ x -> a = b.
Proof.
  intros E. apply list_ascii_of_string_inj.
  apply (f_equal list_ascii_of_string) in E.
  rewrite !list_ascii_of_string_app in E. by apply app_inv_tail in E.
Qed.

Section MoreArgs.
Variable cfg : Config.
Variable json : JsonCodec.

(** [getPlaybookArgs] keeps the job and appends log entries only, whether
    it returns or panics. *)
Lemma getPlaybookArgs_logs username incomingVersion s :
  exists out logs,
    getPlaybookArgs cfg json username incomingVersion s
    = (out, mkRunState (st_job s) (st_trace s ++ logs))
    /\ Forall (fun e => exists msg, e = EvLog msg) logs
    /\ match out with
       | Returned _ => True
       | Panicked msg =>
         msg = "assignment to entry in nil map" /\ logs = []
         /\ nil_environment json (st_job s)
       end.
Proof.
  pose proof (getPlaybookArgs_shape cfg json username incomingVersion s) as H.
  destruct (spec_inventoryArg cfg (st_job s)) as [err|inventory].
  - exists (Returned ([], Some err)), []. rewrite app_nil_r.
    split; [|by split]. rewrite H. by destruct s.
  - destruct H as [(rest & err & logs & E & Hlogs & _)|[E Hnil]].
    + by eexists _, _.
    + exists (Panicked "assignment to entry in nil map"), [].
      rewrite app_nil_r. split; [|by split]. rewrite E. by destruct s.
Qed.

(** X3: [getPlaybookArgs] never assigns a field of the job and calls no
    collaborator but the logger: whether it returns or panics, it ends in
    the state it was called in, with the texts it logged appended to the
    trace.  Its one panic is "assignment to entry in nil map"; it comes
    before anything is logged, and only for an environment text that
    decodes to the nil map. *)
Theorem getPlaybookArgs_only_logs username incomingVersion s :
  exists out msgs,
    getPlaybookArgs cfg json username incomingVersion s
    = (out, mkRunState (st_job s) (st_trace s ++ map EvLog msgs))
    /\ match out with
       | Returned _ => True
       | Panicked msg =>
         msg = "assignment to entry in nil map" /\ msgs = []
         /\ nil_environment json (st_job s)
       end.
Proof.
  destruct (getPlaybookArgs_logs username incomingVersion s)
    as (out & logs & E & Hlogs & Hout).
  assert (exists msgs, logs = map EvLog msgs) as [msgs ->].
  { clear E Hout. induction Hlogs as [|e logs [msg ->] _ (msgs & ->)].
    - by exists [].
    - by exists (msg :: msgs). }
  exists out, msgs. split; [exact E|].
  destruct out as [r|msg]; [done|].
  destruct Hout as (-> & Hnil & ?). by destruct msgs.
Qed.

(** X5: two jobs with inventories of the same static kind are given the
    same inventory file only when they have the same task id. *)
Theorem inventoryOf_task_inj (t1 t2 : LocalJob) (p : string) :
  Inventory_Type (job_Inventory t1) = Inventory_Type (job_Inventory t2) ->
  Inventory_Type (job_Inventory t1) <> InventoryFile ->
  inventoryOf cfg t1 = inr p -> inventoryOf cfg t2 = inr p ->
  Task_ID (job_Task t1) = Task_ID (job_Task t2).
Proof.
  unfold inventoryOf. intros <- Hfile.
  destruct (Inventory_Type (job_Inventory t1)); try done;
    cbn; intros [= <-] [= E].
  - apply String.app_inj, String.app_inj in E. by apply (inj pretty) in E.
  - rewrite !string_app_assoc in E.
    apply String.app_inj, String.app_inj, string_app_inv_tail in E.
    by apply (inj pretty) in E.
Qed.
End MoreArgs.

Section MoreRun.
Variable cfg : Config.
Variable json : JsonCodec.
Variable w : World.

Lemma prepareRun_same_config s r s1 :
  prepareRun cfg w s = (Returned r, s1) -> same_config (st_job s) (st_job s1).
Proof.
  intros E.
  destruct (prepareRun_runs cfg w (same_config (st_job s)) (fun _ => True))
    with (s := s) as (r' & j & tr & E' & Hj & _).
  { apply same_config_stable. }
  { done. }
  { by repeat split. }
  rewrite E' in E. by injection E as _ <-.
Qed.

(** [Run] after a successful preparation of a playbook job, by the
    outcome of the command builder. *)
Lemma Run_body username incomingVersion s s1 out s2 :
  Template_App (job_Template (st_job s)) = TemplateAnsible ->
  prepareRun cfg w (entered s) = (Returned None, s1) ->
  getPlaybookArgs cfg json username incomingVersion s1 = (out, s2) ->
  Run cfg json w username incomingVersion s
  = match out with
    | Panicked msg => (Panicked msg, snd (destroyKeys w s2))
    | Returned (args, Some e) => (Returned (Some e), snd (destroyKeys w s2))
    | Returned (args, None) =>
      match getEnvironmentENV json (st_job s1) with
      | inl e => (Returned (Some e), snd (destroyKeys w s2))
      | inr env =>
        let env' := runEnvironment (st_job s1) env in
        let r := App_Run w (st_trace s2) args env' in
        (Returned (snd r),
         snd (destroyKeys w
                (mkRunState
                   (match fst r with
                    | Some p => set_Process (Some p) (st_job s2)
                    | None => st_job s2
                    end)
                   (st_trace s2 ++ [EvAppRun args env']))))
      end
    end.
Proof.
  intros Happ E1 E2.
  pose proof (prepareRun_same_config _ _ _ E1) as (_ & Ht & _).
  cbn [entered st_job] in Ht.
  unfold Run, SetStatus. rewrite bind_call. fold (entered s).
  rewrite (bind_run _ _ _ _ _ E1). unfold defer. rewrite bind_getJob.
  rewrite Ht, Happ. destruct out as [[args err]|msg].
  2:{ by rewrite (bind_panicked _ _ _ _ _ E2). }
  rewrite (bind_run _ _ _ _ _ E2). cbv beta iota.
  destruct err as [e|]; [reflexivity|].
  destruct (getEnvironmentENV json (st_job s1)) as [e|env]; [reflexivity|].
  cbv zeta. fold (runEnvironment (st_job s1) env). rewrite bind_call.
  destruct (App_Run w (st_trace s2) args (runEnvironment (st_job s1) env))
    as [[p|] e]; reflexivity.
Qed.


Lemma count_is_log p logs :
  (forall msg, p (EvLog msg) = false) ->
  Forall (fun e => exists msg, e = EvLog msg) logs -> count p logs = 0%nat.
Proof.
  intros Hp Hlogs. apply count_Forall_false.
  eapply Forall_impl; [exact Hlogs|]. intros e [msg ->]. apply Hp.
Qed.

(** X6: after a successful preparation of a playbook job, with the
    command line built and the environment decoded, [Run] calls the
    application once, with that command line and with the environment
    list (ending in the agent socket for an SSH login key); it records the
    process the application started, runs the cleanup after the
    application and returns the application's error as it is. *)
Theorem Run_starts_app username incomingVersion s s1 args s2 env :
  Template_App (job_Template (st_job s)) = TemplateAnsible ->
  prepareRun cfg w (entered s) = (Returned None, s1) ->
  getPlaybookArgs cfg json username incomingVersion s1
  = (Returned (args, None), s2) ->
  getEnvironmentENV json (st_job s1) = inr env ->
  let env' := runEnvironment (st_job s1) env in
  let r := App_Run w (st_trace s2) args env' in
  exists s' logs,
    Run cfg json w username incomingVersion s = (Returned (snd r), s')
    /\ Process (st_job s')
       = match fst r with
         | Some p => Some p
         | None => Process (st_job s1)
         end
    /\ st_trace s'
       = st_trace s2
         ++ EvAppRun args env'
            :: EvDestroyKeys (sshKeyInstallation (st_job s1))
                 (becomeKeyInstallation (st_job s1))
                 (vaultFileInstallation (st_job s1))
            :: logs
    /\ Forall (fun e => exists msg, e = EvLog msg) logs.
Proof.
  intros Happ E1 E2 Eenv env' r.
  rewrite (Run_body _ _ _ _ _ _ Happ E1 E2), Eenv. cbv zeta.
  fold env' r. rewrite destroyKeys_run. cbn [snd st_job st_trace].
  destruct (getPlaybookArgs_logs cfg json username incomingVersion s1)
    as (out' & logs' & E2' & _).
  rewrite E2' in E2. injection E2 as _ <-. cbn [st_job].
  eexists _, _. split; [reflexivity|]. cbn [st_job st_trace].
  split; [by destruct (fst r)|]. split.
  { rewrite <- app_assoc. cbn [app]. by destruct (fst r). }
  apply Forall_fmap, Forall_true. intros e. cbn. eauto.
Qed.


(** X7: after a successful preparation of a playbook job, an error of
    [getPlaybookArgs] or, failing that, of [getEnvironmentENV] is what
    [Run] returns; the application is not called, the job is left as the
    preparation left it, and the cleanup is the one call that follows the
    command builder. *)
Theorem Run_build_error username incomingVersion s s1 args err s2 e :
  Template_App (job_Template (st_job s)) = TemplateAnsible ->
  prepareRun cfg w (entered s) = (Returned None, s1) ->
  getPlaybookArgs cfg json username incomingVersion s1
  = (Returned (args, err), s2) ->
  err = Some e \/ (err = None /\ getEnvironmentENV json (st_job s1) = inl e) ->
  exists s' logs,
    Run cfg json w username incomingVersion s = (Returned (Some e), s')
    /\ st_job s' = st_job s1
    /\ st_trace s'
       = st_trace s2
         ++ EvDestroyKeys (sshKeyInstallation (st_job s1))
              (becomeKeyInstallation (st_job s1))
              (vaultFileInstallation (st_job s1))
            :: logs
    /\ Forall (fun e => exists msg, e = EvLog msg) logs.
Proof.
  intros Happ E1 E2 He.
  rewrite (Run_body _ _ _ _ _ _ Happ E1 E2).
  destruct (getPlaybookArgs_logs cfg json username incomingVersion s1)
    as (out' & logs' & E2' & _).
  rewrite E2' in E2. injection E2 as _ <-.
  assert (forall l : list error,
            Forall (fun e => exists msg, e = EvLog msg)
              (map (fun err => EvLog (Error err)) l)) as Hlogs.
  { intros l. apply Forall_fmap, Forall_true. intros ?. cbn. eauto. }
  destruct He as [->|[-> ->]]; rewrite destroyKeys_run;
    cbn [snd st_job st_trace]; eexists _, _; eauto.
Qed.

(** X8: whatever the configuration and the collaborators answer, one
    [Run] calls the application at most once. *)
Theorem Run_appRun_at_most_once username incomingVersion s :
  (count is_appRun
     (st_trace (snd (Run cfg json w username incomingVersion s)))
   <= count is_appRun (st_trace s) + 1)%nat.
Proof.
  destruct (Run_prepare cfg json w username incomingVersion s)
    as (r & j & tr & E & Hj & Htr & HRun).
  assert (count is_appRun tr = 0%nat) as Htr0.
  { apply count_prepare; [|done]. by intros []. }
  destruct r as [err|].
  { rewrite HRun. cbn [snd st_trace entered].
    rewrite !count_app, Htr0, count_single. cbn. lia. }
  clear HRun.
  destruct (Template_App (job_Template (st_job s))) eqn:Happ.
  - destruct (getPlaybookArgs_logs cfg json username incomingVersion
                (mkRunState j (st_trace (entered s) ++ tr)))
      as (out & logs & E2 & Hlogs & _).
    rewrite (Run_body _ _ _ _ _ _ Happ E E2).
    assert (count is_appRun logs = 0%nat) as Hlogs0
      by (by apply count_is_log).
    destruct out as [[args [e|]]|msg];
      [|destruct (getEnvironmentENV json _) as [e|env]|]; cbv zeta;
      rewrite destroyKeys_run; cbn [snd st_job st_trace entered];
      change (?e :: map ?f ?l) with ([e] ++ map f l);
      rewrite !count_app, Htr0, Hlogs0, count_logs, !count_single by done;
      cbn; lia.
  - destruct (Run_prepare cfg json w username incomingVersion s)
      as (r' & j' & tr' & E' & _ & _ & HRun).
    rewrite E' in E. injection E as -> -> ->%app_inv_head.
    destruct HRun as (out & s2 & -> & HRun). rewrite Happ in HRun.
    destruct HRun as [_ ->]. rewrite destroyKeys_run.
    cbn [snd st_job st_trace entered].
    change (?e :: map ?f ?l) with ([e] ++ map f l).
    rewrite !count_app, Htr0, count_logs, !count_single by done. cbn. lia.
Qed.

End MoreRun.

Section MorePrepare.
Variable cfg : Config.
Variable w : World.

Lemma runs_returns {A} (m : M A) :
  runs (fun _ => True) (fun _ => True) m ->
  forall s, exists a s', m s = (Returned a, s').
Proof.
  intros Hm s. destruct (Hm s Logic.I) as (a & j & tr & E & _). eauto.
Qed.

Lemma updateRepository_returns s :
  exists r s', updateRepository w s = (Returned r, s').
Proof.
  apply runs_returns. unfold updateRepository. repeat runs_step; done.
Qed.

Lemma checkoutRepository_returns s :
  exists r s', checkoutRepository w s = (Returned r, s').
Proof.
  apply runs_returns. unfold checkoutRepository. repeat runs_step; done.
Qed.

Lemma installInventory_returns s :
  exists r s', installInventory w s = (Returned r, s').
Proof.
  apply runs_returns. unfold installInventory. repeat runs_step; done.
Qed.

Lemma installVaultKeyFile_returns s :
  exists r s', installVaultKeyFile w s = (Returned r, s').
Proof.
  apply runs_returns. unfold installVaultKeyFile. repeat runs_step; done.
Qed.

Ltac sub_step lem :=
  match goal with
  | |- context [(?m ≫= ?k) ?s0] =>
    let r := fresh "r" in
    let s' := fresh "s" in
    let E := fresh "E" in
    destruct (lem s0) as (r & s' & E);
    rewrite (bind_run m k s0 r s' E); clear E; destruct r
  end.

Ltac logged :=
  step; intros [= <- <-]; cbn [st_trace]; rewrite <- ?string_app_assoc;
  eexists _, _; reflexivity.

(** X9: whenever [prepareRun] returns an error, the last thing it did was
    to log a message that ends with the text of that error. *)
Theorem prepareRun_failure_logged s err s' :
  prepareRun cfg w s = (Returned (Some err), s') ->
  exists tr context, st_trace s' = tr ++ [EvLog (context +:+ Error err)].
Proof.
  unfold prepareRun, Log. step.
  destruct (checkTmpDir w _ _); [logged|].
  assert (forall s0 : RunState,
    (installInventory w ≫= fun err0 =>
       match err0 with
       | Some err1 =>
         call (EvLog ("Failed to install inventory: " +:+ Error err1))
           (fun _ => ()) ≫= fun _ => mret (Some err1)
       | None =>
         call EvInstallRequirements (App_InstallRequirements w) ≫= fun err1 =>
           match err1 with
           | Some err2 =>
             call (EvLog ("Running galaxy failed: " +:+ Error err2))
               (fun _ => ()) ≫= fun _ => mret (Some err2)
           | None =>
             installVaultKeyFile w ≫= fun err2 =>
               match err2 with
               | Some err3 =>
                 call (EvLog ("Failed to install vault password file: "
                              +:+ Error err3))
                   (fun _ => ()) ≫= fun _ => mret (Some err3)
               | None => mret None
               end
           end
       end) s0 = (Returned (Some err), s') ->
    exists tr context, st_trace s' = tr ++ [EvLog (context +:+ Error err)])
    as Htail.
  { intros s0. sub_step installInventory_returns; [logged|]. step.
    destruct (App_InstallRequirements w _); [logged|].
    sub_step installVaultKeyFile_returns; [logged|]. step. discriminate. }
  destruct (decide _).
  - step. destruct (os_Stat w _ _); [logged|]. step. apply Htail.
  - step. sub_step updateRepository_returns; [logged|].
    step. sub_step checkoutRepository_returns; [logged|]. step. apply Htail.
Qed.

(** X10: [checkoutRepository] validates the working copy first.  When
    the validation fails it returns that error as it is and does nothing
    else.  When the working copy is valid and the task pins a commit, it
    checks out that commit, once, and returns the result of that checkout.
    When the working copy is valid and no commit is pinned it returns no
    error and does nothing else.  So a checkout only ever is of the pinned
    commit in a validated working copy, and nothing is pulled, cloned or
    removed. *)
Theorem checkoutRepository_pinned s :
  exists r tr,
    checkoutRepository w s
    = (Returned r, mkRunState (st_job s) (st_trace s ++ tr))
    /\ (forall e,
          repo_ValidateRepo w (st_trace s) = Some e ->
          r = Some e /\ tr = [EvValidateRepo])
    /\ (forall commit,
          Task_CommitHash (job_Task (st_job s)) = Some commit ->
          repo_ValidateRepo w (st_trace s) = None ->
          r = repo_Checkout w (st_trace s ++ [EvValidateRepo]) commit
          /\ tr = [EvValidateRepo; EvCheckout commit])
    /\ (Task_CommitHash (job_Task (st_job s)) = None ->
        repo_ValidateRepo w (st_trace s) = None ->
        r = None /\ tr = [EvValidateRepo])
    /\ (forall commit,
          EvCheckout commit ∈ tr ->
          Task_CommitHash (job_Task (st_job s)) = Some commit
          /\ repo_ValidateRepo w (st_trace s) = None
          /\ r = repo_Checkout w (st_trace s ++ [EvValidateRepo]) commit)
    /\ (count is_pull tr + count is_clone tr + count is_removeAll tr = 0)%nat.
Proof.
  unfold checkoutRepository. step.
  destruct (repo_ValidateRepo w (st_trace s)) as [e|] eqn:Ev; norm.
  - exists (Some e), [EvValidateRepo]. split; [done|].
    split; [by intros ? [= <-]|]. split; [done|]. split; [done|].
    split; [|done]. intros commit Hin.
    apply elem_of_cons in Hin as [?|Hin]; [done|]. by apply elem_of_nil in Hin.
  - destruct (Task_CommitHash (job_Task (st_job s))) as [c|] eqn:Ec; norm.
    + eexists _, [EvValidateRepo; EvCheckout c]. split; [done|].
      split; [done|]. split; [by intros ? [= <-]|]. split; [done|].
      split; [|done]. intros commit Hin.
      apply elem_of_cons in Hin as [?|Hin]; [done|].
      apply elem_of_cons in Hin as [[= ->]|Hin]; [done|].
      by apply elem_of_nil in Hin.
    + exists None, [EvValidateRepo]. split; [done|].
      split; [done|]. split; [done|]. split; [done|].
      split; [|done]. intros commit Hin.
      apply elem_of_cons in Hin as [?|Hin]; [done|].
      by apply elem_of_nil in Hin.
Qed.

End MorePrepare.

Section Accept.
Variable cfg : Config.
Variable json : JsonCodec.

Lemma inventoryOf_ok t :
  (exists p, inventoryOf cfg t = inr p)
  <-> forall name, Inventory_Type (job_Inventory t) <> InventoryOther name.
Proof.
  unfold inventoryOf. destruct (Inventory_Type (job_Inventory t));
    cbn; split; try (intros; discriminate); eauto.
  - intros [p [=]].
  - intros H. by destruct (H name).
Qed.

Lemma appendSSHKeyArgs_ok t args :
  (exists args', appendSSHKeyArgs t args = inr args')
  <-> (Inventory_SSHKeyID (job_Inventory t) = None
       \/ forall name,
            AccessKey_Type (Inventory_SSHKey (job_Inventory t))
            <> AccessKeyOther name).
Proof.
  unfold appendSSHKeyArgs.
  destruct (Inventory_SSHKeyID (job_Inventory t)),
    (AccessKey_Type (Inventory_SSHKey (job_Inventory t)));
    repeat case_decide; split; eauto; try (intros; right; discriminate).
  - intros [a [=]].
  - intros [[=]|H]. by destruct (H name).
Qed.

Lemma appendBecomeKeyArgs_ok t args :
  (exists args', appendBecomeKeyArgs t args = inr args')
  <-> (Inventory_BecomeKeyID (job_Inventory t) = None
       \/ AccessKey_Type (Inventory_BecomeKey (job_Inventory t))
          = AccessKeyLoginPassword
       \/ AccessKey_Type (Inventory_BecomeKey (job_Inventory t))
          = AccessKeyNone).
Proof.
  unfold appendBecomeKeyArgs.
  destruct (Inventory_BecomeKeyID (job_Inventory t)),
    (AccessKey_Type (Inventory_BecomeKey (job_Inventory t)));
    split; eauto; try (intros [a [=]]); intros [[=]|[[=]|[=]]].
Qed.

(** The outcome of [getPlaybookArgs], block by block: the error it
    returns, or the panic of the payload construction. *)
Lemma getPlaybookArgs_error username incomingVersion s :
  let t := st_job s in
  exists out s',
    getPlaybookArgs cfg json username incomingVersion s = (out, s')
    /\ match inventoryOf cfg t with
       | inl e => exists args, out = Returned (args, Some e)
       | inr inventory =>
       match appendSSHKeyArgs t ["-i"; inventory] with
       | inl e => exists args, out = Returned (args, Some e)
       | inr args1 =>
       match appendBecomeKeyArgs t args1 with
       | inl e => exists args, out = Returned (args, Some e)
       | inr _ =>
       match getEnvironmentExtraVarsJSON json username incomingVersion t with
       | Panicked msg => out = Panicked msg /\ s' = s
       | Returned r =>
         exists args,
           out
           = Returned
               (args,
                match
                  parseTemplateArguments json t
                    match r with
                    | inl e => Some e
                    | inr _ => None
                    end
                with
                | inl e => Some e
                | inr (_, err1) =>
                match parseTaskArguments json t err1 with
                | inl e => Some e
                | inr (_, err2) => err2
                end end)
       end end end end.
Proof.
  intros t. unfold getPlaybookArgs. rewrite bind_getJob. cbv zeta. fold t.
  destruct (inventoryOf cfg t) as [e|inventory]; [by eexists _, _; eauto|].
  destruct (appendSSHKeyArgs t _) as [e|args1]; [by eexists _, _; eauto|].
  destruct (appendBecomeKeyArgs t args1) as [e|args2];
    [by eexists _, _; eauto|].
  match goal with |- context [appendExtraVars json _ _ t ?a] =>
    pose proof (appendExtraVars_spec json username incomingVersion t a s)
      as E3 end.
  destruct (getEnvironmentExtraVarsJSON json username incomingVersion t)
    as [r|msg].
  2:{ rewrite (bind_panicked _ _ _ _ _ E3). by eexists _, _. }
  destruct E3 as (logs1 & E3 & _).
  rewrite (bind_run _ _ _ _ _ E3). cbv beta iota.
  destruct (parseTemplateArguments json t _) as [e|[targs err1]].
  { unfold Log. norm. eexists _, _. split; [reflexivity|]. by eexists. }
  destruct (parseTaskArguments json t err1) as [e|[kargs err2]].
  { unfold Log. norm. eexists _, _. split; [reflexivity|]. by eexists. }
  match goal with |- context [appendLimit t ?l ≫= _] =>
    destruct (appendLimit_spec t l
                (mkRunState (st_job s) (st_trace s ++ logs1)))
      as (logs2 & E6 & _) end.
  rewrite (bind_run _ _ _ _ _ E6). eexists _, _.
  split; [reflexivity|]. by eexists.
Qed.

(** X4: [getPlaybookArgs] returns without error exactly on the accepted
    configurations: a known inventory kind, suitable login and become
    keys, template and (where allowed) task arguments that decode, an
    environment text that does not decode to the nil map, and a payload
    that could be built or whose error a later block has overwritten. *)
Theorem getPlaybookArgs_accepts username incomingVersion s :
  (exists args s',
     getPlaybookArgs cfg json username incomingVersion s
     = (Returned (args, None), s'))
  <-> playbookArgs_accepted json username incomingVersion (st_job s).
Proof.
  destruct (getPlaybookArgs_error username incomingVersion s)
    as (out & s' & E & H). cbv zeta in H. rewrite E. clear E.
  assert ((exists args s0, (out, s') = (Returned (args, None), s0))
          <-> exists args, out = Returned (args, None)) as ->.
  { split; [intros (a & ? & [= -> _])|intros (a & ->)]; eauto. }
  set (t := st_job s) in *. unfold playbookArgs_accepted.
  rewrite <- (inventoryOf_ok t).
  destruct (inventoryOf cfg t) as [e|inventory].
  { destruct H as [a ->]. split; [by intros (? & [=])|].
    by intros [[p [=]] _]. }
  rewrite <- (appendSSHKeyArgs_ok t ["-i"; inventory]).
  destruct (appendSSHKeyArgs t _) as [e|args1].
  { destruct H as [a ->]. split; [by intros (? & [=])|].
    by intros (_ & [p [=]] & _). }
  rewrite <- (appendBecomeKeyArgs_ok t args1).
  destruct (appendBecomeKeyArgs t args1) as [e|args2].
  { destruct H as [a ->]. split; [by intros (? & [=])|].
    by intros (_ & _ & [p [=]] & _). }
  destruct (getEnvironmentExtraVarsJSON json username incomingVersion t)
    as [r|msg] eqn:Ep.
  2:{ destruct H as [-> _]. split; [by intros (? & [=])|].
      intros (_ & _ & _ & _ & _ & Hnil & _). destruct Hnil.
      by apply getEnvironmentExtraVarsJSON_panics in Ep as [_ ?]. }
  assert (~ nil_environment json t) as Hnn.
  { intros Hnil.
    assert (getEnvironmentExtraVarsJSON json username incomingVersion t
            = Panicked "assignment to entry in nil map") as Ep'
      by (by apply getEnvironmentExtraVarsJSON_panics).
    congruence. }
  destruct H as [a ->].
  unfold parseTemplateArguments, parseTaskArguments.
  destruct r as [e|payload];
    destruct (Template_Arguments (job_Template t)) as [a0|];
    try destruct (unmarshal_strings json a0) as [e1|l1] eqn:Ea;
    destruct (Template_AllowOverrideArgsInTask (job_Template t));
    destruct (Task_Arguments (job_Task t)) as [a'|];
    try destruct (unmarshal_strings json a') as [e2|l2] eqn:Ea';
    (split;
     [ intros (? & [=]); repeat split; eauto;
       try (intros ? [= <-]; eauto); try done;
       try (right; left; by eexists); try (right; right; split; [done|by eexists])
     | intros (_ & _ & _ & H1 & H2 & _ & H3) ]).
  all: try (by eexists).
  all: try (destruct (H1 _ eq_refl) as [? ?]; congruence).
  all: try (destruct (H2 eq_refl _ eq_refl) as [? ?]; congruence).
  all: try (destruct H3 as [[? [=]]|[[? [=]]|[[=] _]]]; fail).
  all: try (destruct H3 as [[? [=]]|[[? [=]]|[_ [? [=]]]]]; fail).
  all: try (intros _ ? [= <-]; eauto).
Qed.

(** The panic of [getPlaybookArgs]. *)
Lemma getPlaybookArgs_panics username incomingVersion s msg s' :
  getPlaybookArgs cfg json username incomingVersion s = (Panicked msg, s')
  <-> msg = "assignment to entry in nil map" /\ s' = s
      /\ playbookArgs_keys_accepted (st_job s)
      /\ nil_environment json (st_job s).
Proof.
  destruct (getPlaybookArgs_error username incomingVersion s)
    as (out & s0 & E & H). cbv zeta in H. rewrite E. clear E.
  set (t := st_job s) in *. unfold playbookArgs_keys_accepted.
  rewrite <- (inventoryOf_ok t).
  destruct (inventoryOf cfg t) as [e|inventory].
  { destruct H as [a ->]. split; [by intros [=]|].
    by intros (_ & _ & [[p [=]] _] & _). }
  rewrite <- (appendSSHKeyArgs_ok t ["-i"; inventory]).
  destruct (appendSSHKeyArgs t _) as [e|args1].
  { destruct H as [a ->]. split; [by intros [=]|].
    by intros (_ & _ & (_ & [p [=]] & _) & _). }
  rewrite <- (appendBecomeKeyArgs_ok t args1).
  destruct (appendBecomeKeyArgs t args1) as [e|args2].
  { destruct H as [a ->]. split; [by intros [=]|].
    by intros (_ & _ & (_ & _ & [p [=]]) & _). }
  destruct (getEnvironmentExtraVarsJSON json username incomingVersion t)
    as [r|msg0] eqn:Ep.
  - destruct H as [a ->]. split; [by intros [=]|].
    intros (_ & _ & _ & Hnil).
    assert (getEnvironmentExtraVarsJSON json username incomingVersion t
            = Panicked "assignment to entry in nil map") as Ep'
      by (by apply getEnvironmentExtraVarsJSON_panics).
    congruence.
  - apply getEnvironmentExtraVarsJSON_panics in Ep as [-> Hnil].
    destruct H as [-> ->]. split.
    + intros [= <- <-]. repeat split; eauto; apply Hnil.
    + by intros (-> & -> & _).
Qed.

(** X23: [getPlaybookArgs] panics exactly when the inventory kind is
    known, the login and become keys are suitable and the environment
    text decodes to the nil map; the panic is the one of the assignment
    to the nil map, and the job and the trace are then as they were, with
    nothing logged.  On every other configuration it returns. *)
Theorem getPlaybookArgs_panics_iff username incomingVersion s :
  (forall msg s',
     getPlaybookArgs cfg json username incomingVersion s = (Panicked msg, s')
     <-> msg = "assignment to entry in nil map" /\ s' = s
         /\ playbookArgs_keys_accepted (st_job s)
         /\ nil_environment json (st_job s))
  /\ (~ (playbookArgs_keys_accepted (st_job s)
         /\ nil_environment json (st_job s)) ->
      exists args err s',
        getPlaybookArgs cfg json username incomingVersion s
        = (Returned (args, err), s')).
Proof.
  split; [intros msg s'; apply getPlaybookArgs_panics|].
  intros Hnot.
  destruct (getPlaybookArgs cfg json username incomingVersion s)
    as [[[args err]|msg] s'] eqn:E; [by eexists _, _, _|].
  destruct Hnot. by apply getPlaybookArgs_panics in E as (_ & _ & ? & ?).
Qed.

Section PanicRun.
Variable w : World.

(** X24: when the preparation of a playbook job succeeded, the keys are
    suitable and the environment text decodes to the nil map, [Run] does
    not return: it panics with "assignment to entry in nil map".  The
    application is never called; the deferred cleanup runs, and is the one
    thing done after the preparation. *)
Theorem Run_payload_panic username incomingVersion s s1 :
  Template_App (job_Template (st_job s)) = TemplateAnsible ->
  prepareRun cfg w (entered s) = (Returned None, s1) ->
  playbookArgs_keys_accepted (st_job s1) ->
  nil_environment json (st_job s1) ->
  exists logs,
    Run cfg json w username incomingVersion s
    = (Panicked "assignment to entry in nil map",
       mkRunState (st_job s1)
         (st_trace s1
          ++ EvDestroyKeys (sshKeyInstallation (st_job s1))
               (becomeKeyInstallation (st_job s1))
               (vaultFileInstallation (st_job s1))
             :: logs))
    /\ Forall (fun e => exists msg, e = EvLog msg) logs.
Proof.
  intros Happ E1 Hkeys Hnil.
  assert (getPlaybookArgs cfg json username incomingVersion s1
          = (Panicked "assignment to entry in nil map", s1)) as E2
    by (by apply getPlaybookArgs_panics).
  rewrite (Run_body cfg json w _ _ _ _ _ _ Happ E1 E2), destroyKeys_run.
  cbn [snd]. eexists. split; [reflexivity|].
  apply Forall_fmap, Forall_true. intros e. cbn. eauto.
Qed.

End PanicRun.

End Accept.

Section TerraformTheory.

Variable json : JsonCodec.
Variable rangeKeys : gmap string JValue -> list string.

Lemma foldl_var (args : list string) (keys : list string) :
  foldl (fun args v => args ++ ["-var"; v]) args keys
  = args ++ (keys ≫= fun k => ["-var"; k]).
Proof.
  revert args. induction keys as [|k keys IH]; intros args; cbn.
  - by rewrite app_nil_r.
  - rewrite IH. by rewrite <- app_assoc.
Qed.

(** X13: when the extra variables can be built, [getTerraformArgs] logs
    nothing and returns [plan] for a dry run and [apply] otherwise,
    followed by [-var] and the key for each key of the extra variables,
    each once, in the order of the [range]; [semaphore_vars] is one of
    them, and no value is passed. *)
Theorem getTerraformArgs_vars username incomingVersion s m :
  (forall m, rangeKeys m ≡ₚ (map_to_list m).*1) ->
  getEnvironmentExtraVars json username incomingVersion (st_job s)
  = Returned (inr m) ->
  exists keys,
    getTerraformArgs json rangeKeys username incomingVersion s
    = (Returned
         ((if Task_DryRun (job_Task (st_job s)) then "plan" else "apply")
          :: (keys ≫= fun k => ["-var"; k]), None), s)
    /\ keys ≡ₚ (map_to_list m).*1
    /\ "semaphore_vars" ∈ keys
    /\ NoDup keys.
Proof.
  intros Hrange Em. exists (rangeKeys m). unfold getTerraformArgs.
  rewrite bind_getJob, Em. cbv zeta. rewrite foldl_var, run_ret.
  split; [by destruct (Task_DryRun _)|]. split; [done|].
  assert ("semaphore_vars" ∈ (map_to_list m).*1) as Hin.
  { revert Em. unfold getEnvironmentExtraVars.
    destruct (if decide _ then _ else _) as [e|[m0|]]; [done| |done].
    intros [= <-]. apply list_elem_of_fmap.
    eexists ("semaphore_vars", _). split; [done|].
    apply elem_of_map_to_list. apply lookup_insert_eq. }
  split; [by rewrite Hrange|]. rewrite Hrange. apply NoDup_fst_map_to_list.
Qed.

(** X14: when the extra variables cannot be built, [getTerraformArgs]
    logs the error and a second message and returns the error with the
    mode as the only argument. *)
Theorem getTerraformArgs_error username incomingVersion s err :
  getEnvironmentExtraVars json username incomingVersion (st_job s)
  = Returned (inl err) ->
  exists msg,
    getTerraformArgs json rangeKeys username incomingVersion s
    = (Returned
         ([if Task_DryRun (job_Task (st_job s)) then "plan" else "apply"],
          Some err),
       mkRunState (st_job s)
         (st_trace s ++ [EvLog (Error err); EvLog msg])).
Proof.
  intros Em. unfold getTerraformArgs. rewrite bind_getJob, Em. cbv zeta.
  rewrite !bind_Log, run_ret. cbn [st_job st_trace]. rewrite <- app_assoc.
  eexists. by destruct (Task_DryRun _).
Qed.

(** X25: [getTerraformArgs] panics exactly when the environment text
    decodes to the nil map, with the message of the assignment to the nil
    map, and has then logged nothing and left the job as it was; on every
    other environment it returns. *)
Theorem getTerraformArgs_panics_iff username incomingVersion s :
  (forall msg s',
     getTerraformArgs json rangeKeys username incomingVersion s
     = (Panicked msg, s')
     <-> msg = "assignment to entry in nil map" /\ s' = s
         /\ nil_environment json (st_job s))
  /\ (~ nil_environment json (st_job s) ->
      exists args err s',
        getTerraformArgs json rangeKeys username incomingVersion s
        = (Returned (args, err), s')).
Proof.
  unfold getTerraformArgs. rewrite bind_getJob. cbv zeta.
  destruct (getEnvironmentExtraVars json username incomingVersion (st_job s))
    as [[e|m]|msg0] eqn:E.
  1,2: assert (~ nil_environment json (st_job s)) as Hnn
    by (intros Hnil;
        assert (getEnvironmentExtraVars json username incomingVersion
                  (st_job s) = Panicked "assignment to entry in nil map")
          by (by apply getEnvironmentExtraVars_panics);
        congruence).
  - rewrite !bind_Log, run_ret. split; [|by eexists _, _, _].
    intros msg s'. split; [by intros [=]|]. by intros (_ & _ & ?).
  - rewrite run_ret. split; [|by eexists _, _, _].
    intros msg s'. split; [by intros [=]|]. by intros (_ & _ & ?).
  - apply getEnvironmentExtraVars_panics in E as [-> Hnil]. split; [|done].
    intros msg s'. unfold panic. split.
    + by intros [= <- <-].
    + by intros (-> & -> & _).
Qed.

End TerraformTheory.

Section MoreExtraVars.
Variable json : JsonCodec.

(** X11: the map of [getEnvironmentExtraVars] has the keys of the decoded
    environment and [semaphore_vars]; every other key keeps the value the
    environment gave it, and [semaphore_vars] holds the task details of
    this run whatever the environment had put there. *)
Theorem getEnvironmentExtraVars_user_keys username incomingVersion t m0 :
  (Environment_JSON (job_Environment t) = "" /\ m0 = ∅
   \/ Environment_JSON (job_Environment t) <> ""
      /\ unmarshal_object json (Environment_JSON (job_Environment t))
         = inr (Some m0)) ->
  exists m td,
    getEnvironmentExtraVars json username incomingVersion t
    = Returned (inr m)
    /\ (forall k, k <> "semaphore_vars" -> m !! k = m0 !! k)
    /\ m !! "semaphore_vars"
       = Some (JObject {["task_details" := JObject td]})
    /\ td !! "id" = Some (JInt (Task_ID (job_Task t)))
    /\ td !! "username" = Some (JString username)
    /\ dom m = {["semaphore_vars"]} ∪ dom m0.
Proof.
  intros Henv. unfold getEnvironmentExtraVars.
  assert ((if decide (Environment_JSON (job_Environment t) <> "")
           then unmarshal_object json (Environment_JSON (job_Environment t))
           else inr (Some ∅)) = inr (Some m0)) as ->.
  { destruct Henv as [[-> ->]|[Hne ->]]; [done|]. by rewrite decide_True. }
  eexists _, _. split; [reflexivity|].
  split; [by intros k Hk; rewrite lookup_insert_ne|].
  split; [by rewrite lookup_insert_eq|].
  split; [|split; [|by rewrite dom_insert_L]].
  - repeat case_decide; destruct incomingVersion; by simplify_map_eq.
  - repeat case_decide; destruct incomingVersion; by simplify_map_eq.
Qed.

(** X12: [getEnvironmentExtraVars] fails exactly when the environment text
    is not empty and does not decode, and then with the decoder's error:
    an empty text is never handed to the decoder. *)
Theorem getEnvironmentExtraVars_fails_iff username incomingVersion t err :
  getEnvironmentExtraVars json username incomingVersion t = Returned (inl err)
  <-> Environment_JSON (job_Environment t) <> ""
      /\ unmarshal_object json (Environment_JSON (job_Environment t))
         = inl err.
Proof.
  unfold getEnvironmentExtraVars. case_decide as Hne.
  - destruct (unmarshal_object json _) as [e|[m0|]]; split;
      try done; try (by intros [_ [=]]).
    + by intros [= ->].
    + by intros [_ [= ->]].
  - split; [done|]. by intros [? _].
Qed.

(** X22: both payload constructions panic exactly on an environment text
    that is not empty and decodes to the nil map, as the document [null]
    does, and then with "assignment to entry in nil map"; on every other
    environment each of them returns, an error or a result. *)
Theorem getEnvironmentExtraVars_panics_iff username incomingVersion t :
  (forall msg,
     getEnvironmentExtraVars json username incomingVersion t = Panicked msg
     <-> msg = "assignment to entry in nil map" /\ nil_environment json t)
  /\ (forall msg,
        getEnvironmentExtraVarsJSON json username incomingVersion t
        = Panicked msg
        <-> msg = "assignment to entry in nil map" /\ nil_environment json t)
  /\ (~ nil_environment json t ->
      (exists r,
         getEnvironmentExtraVars json username incomingVersion t = Returned r)
      /\ (exists r,
            getEnvironmentExtraVarsJSON json username incomingVersion t
            = Returned r)).
Proof.
  split; [intros msg; apply getEnvironmentExtraVars_panics|].
  split; [intros msg; apply getEnvironmentExtraVarsJSON_panics|].
  intros Hnn. split.
  - destruct (getEnvironmentExtraVars json username incomingVersion t)
      as [r|msg] eqn:E; [by eexists|].
    by apply getEnvironmentExtraVars_panics in E as [_ ?].
  - destruct (getEnvironmentExtraVarsJSON json username incomingVersion t)
      as [r|msg] eqn:E; [by eexists|].
    by apply getEnvironmentExtraVarsJSON_panics in E as [_ ?].
Qed.

End MoreExtraVars.

Module BoltTheory.
Import Bolt.

(** *** Bucket names *)

Lemma decimal_go_app acc s1 s2 :
  decimal_go acc (s1 +:+ s2) = decimal_go (decimal_go acc s1) s2.
Proof.
  revert acc. induction s1 as [|c s1 IH]; intros acc; [done|].
  change (decimal_go (10 * acc + digit_value c) (s1 +:+ s2)
          = decimal_go (decimal_go (10 * acc + digit_value c) s1) s2).
  apply IH.
Qed.

Lemma decimal_go_zeros k s : decimal_go 0 (zeros k +:+ s) = decimal_go 0 s.
Proof. induction k as [|k IH]; [done|]. exact IH. Qed.

Lemma digit_value_pretty d : (d < 10)%N -> digit_value (pretty_N_char d) = d.
Proof.
  intros Hd.
  assert (d = 0 \/ d = 1 \/ d = 2 \/ d = 3 \/ d = 4 \/ d = 5 \/ d = 6
          \/ d = 7 \/ d = 8 \/ d = 9)%N as H by lia.
  repeat destruct H as [->|H]; try subst d; reflexivity.
Qed.

Lemma pretty_N_go_app x s : pretty_N_go x s = pretty_N_go x "" +:+ s.
Proof.
  revert s. induction (N.lt_wf_0 x) as [x _ IH]; intros s.
  destruct (decide (x = 0)%N) as [->|Hx]; [by rewrite !pretty_N_go_0|].
  assert (x `div` 10 < x)%N as Hlt by (apply N.div_lt; lia).
  rewrite (pretty_N_go_step x s), (pretty_N_go_step x "") by lia.
  rewrite (IH _ Hlt (String _ s)), (IH _ Hlt (String _ "")).
  by rewrite string_app_assoc.
Qed.

Lemma decimal_go_pretty_go x : decimal_go 0 (pretty_N_go x "") = x.
Proof.
  induction (N.lt_wf_0 x) as [x _ IH].
  destruct (decide (x = 0)%N) as [->|Hx]; [done|].
  assert (x `div` 10 < x)%N as Hlt by (apply N.div_lt; lia).
  rewrite pretty_N_go_step, pretty_N_go_app, decimal_go_app by lia.
  rewrite (IH _ Hlt). cbn [decimal_go].
  rewrite digit_value_pretty by (apply N.mod_lt; lia).
  pose proof (N.div_mod x 10). lia.
Qed.

Lemma decimal_go_pretty (x : N) : decimal_go 0 (pretty x) = x.
Proof.
  unfold pretty, pretty_N. case_decide as Hx; [by subst|].
  apply decimal_go_pretty_go.
Qed.

Lemma pretty_N_not_dash (x : N) s : pretty x <> "-" +:+ s.
Proof.
  unfold pretty, pretty_N. case_decide; [done|].
  by apply pretty_N_go_ne_dash.
Qed.

Lemma padded_value_Sprintf n : padded_value (Sprintf_010d n) = n.
Proof.
  unfold Sprintf_010d. destruct (Z.ltb_spec n 0).
  - change (padded_value ("-" +:+ ?s)) with (- Z.of_N (decimal_go 0 s)).
    rewrite decimal_go_zeros, decimal_go_pretty. lia.
  - set (x := Z.to_N (Z.abs n)).
    assert (Z.of_N (decimal_go 0
              (zeros (10 - String.length (pretty x)) +:+ pretty x)) = n) as E.
    { rewrite decimal_go_zeros, decimal_go_pretty. lia. }
    destruct (10 - String.length (pretty x))%nat as [|k] eqn:Ek.
    + cbn [zeros] in *. change ("" +:+ ?s) with s in *.
      destruct (pretty x) as [|c p] eqn:Ep; [done|].
      unfold padded_value.
      destruct (decide (c = "-"%char)) as [->|Hc].
      { by destruct (pretty_N_not_dash x p). }
      rewrite <- E.
      destruct c as [[] [] [] [] [] [] [] []]; try reflexivity.
      by destruct Hc.
    + exact E.
Qed.

(** X15: for one kind of object, the buckets of two projects have the
    same name only when the projects are the same. *)
Theorem makeBucketId_inj (props : ObjectProperties) (p1 p2 : Z) :
  makeBucketId props [p1] = makeBucketId props [p2] -> p1 = p2.
Proof.
  unfold makeBucketId. cbn [foldl]. intros E.
  apply String.app_inj, String.app_inj in E.
  by rewrite <- (padded_value_Sprintf p1), <- (padded_value_Sprintf p2), E.
Qed.


(** *** The store *)

Section StoreTheory.

Variable ErrNotFound : error.
Variable ErrInvalidOperation : error.
Variable InventoryObject : ObjectProperties.
Variable Obj : Type.
Variable Obj_ID : Obj -> Z.
Variable decodeObject : string -> error + Obj.
Variable encodeObject : Obj -> error + string.

Lemma getObject_stored db projectID props objectID :
  getObject ErrNotFound Obj decodeObject db projectID props objectID
  = match stored db projectID props objectID with
    | Some str => decodeObject str
    | None => inl ErrNotFound
    end.
Proof.
  unfold getObject, View, stored.
  destruct (db !! _) as [b|]; [|done]. cbn. by destruct (bucket_data b !! _).
Qed.

Lemma isObjectInUse_stored db projectID props objectID :
  isObjectInUse db projectID props objectID
  = (bool_decide (is_Some (stored db projectID props objectID)), None).
Proof.
  unfold isObjectInUse, View, stored. by destruct (db !! _) as [b|].
Qed.

(** X16: after [deleteObject], whatever it returned, the object it was
    given is in the store exactly when it was there before, with the
    same value. *)
Theorem deleteObject_keeps_object db projectID props objectID :
  let db' :=
    fst (deleteObject ErrNotFound ErrInvalidOperation InventoryObject
           db projectID props objectID) in
  getObject ErrNotFound Obj decodeObject db' projectID props objectID
  = getObject ErrNotFound Obj decodeObject db projectID props objectID
  /\ isObjectInUse db' projectID props objectID
     = isObjectInUse db projectID props objectID.
Proof.
  intros db'. rewrite !getObject_stored, !isObjectInUse_stored.
  cut (stored db' projectID props objectID
       = stored db projectID props objectID); [by intros ->|].
  subst db'. unfold deleteObject. rewrite isObjectInUse_stored.
  cbv beta iota.
  case_bool_decide as Hin; [done|]. unfold Update.
  destruct (db !! makeBucketId InventoryObject [projectID]) as [b|] eqn:Eb;
    [|done].
  cbn [fst]. unfold stored.
  destruct (decide (makeBucketId props [projectID]
                    = makeBucketId InventoryObject [projectID])) as [E|E].
  - rewrite E, lookup_insert_eq, Eb. cbn.
    unfold stored in Hin. rewrite E, Eb in Hin. cbn in Hin.
    rewrite lookup_delete_eq. symmetry.
    by apply eq_None_not_Some.
  - by rewrite lookup_insert_ne.
Qed.

(** X17: when the id is not in use for the given kind and the inventory
    bucket of the project holds that id, [deleteObject] returns no error
    and has deleted the inventory with that id; every other bucket is as
    before. *)
Theorem deleteObject_deletes_inventory db projectID props objectID :
  fst (isObjectInUse db projectID props objectID) = false ->
  fst (isObjectInUse db projectID InventoryObject objectID) = true ->
  exists db',
    deleteObject ErrNotFound ErrInvalidOperation InventoryObject
      db projectID props objectID
    = (db', None)
    /\ fst (isObjectInUse db' projectID InventoryObject objectID) = false
    /\ (forall name,
          name <> makeBucketId InventoryObject [projectID] ->
          db' !! name = db !! name).
Proof.
  rewrite !isObjectInUse_stored. cbn [fst].
  intros Hnot%bool_decide_eq_false [str Hinv]%bool_decide_eq_true.
  unfold deleteObject. rewrite isObjectInUse_stored. cbv beta iota.
  rewrite bool_decide_false by done. unfold Update.
  unfold stored in Hinv.
  destruct (db !! makeBucketId InventoryObject [projectID]) as [b|] eqn:Eb;
    [|done].
  eexists. split; [reflexivity|]. split.
  - rewrite isObjectInUse_stored. cbn [fst]. apply bool_decide_eq_false.
    unfold stored. rewrite lookup_insert_eq. cbn.
    rewrite lookup_delete_eq. by intros [? [=]].
  - intros name Hname. by rewrite lookup_insert_ne.
Qed.

(** X18: after an [updateObject] that returned no error, [getObject] on
    the id of the object decodes the encoding of that object; the id was
    already in use before the update. *)
Theorem updateObject_getObject db projectID props object db' :
  updateObject ErrNotFound Obj Obj_ID encodeObject db projectID props object
  = (db', None) ->
  exists str,
    encodeObject object = inr str
    /\ getObject ErrNotFound Obj decodeObject db' projectID props
         (Obj_ID object)
       = decodeObject str
    /\ fst (isObjectInUse db projectID props (Obj_ID object)) = true.
Proof.
  unfold updateObject, Update. rewrite isObjectInUse_stored, getObject_stored.
  unfold stored.
  destruct (db !! makeBucketId props [projectID]) as [b|] eqn:Eb; [|done].
  cbn. destruct (bucket_data b !! Itoa (Obj_ID object)) as [old|] eqn:Eold;
    [|done].
  destruct (encodeObject object) as [err|str]; [done|].
  intros [= <-]. exists str. split; [done|].
  rewrite lookup_insert_eq. cbn. rewrite lookup_insert_eq. by split.
Qed.

(** X19: [updateObject] neither adds nor removes an id of any bucket,
    and every object other than the one it was given reads as before. *)
Theorem updateObject_frame db projectID props object projectID' props' id' :
  let db' :=
    fst (updateObject ErrNotFound Obj Obj_ID encodeObject db projectID props
           object) in
  isObjectInUse db' projectID' props' id'
  = isObjectInUse db projectID' props' id'
  /\ ((makeBucketId props' [projectID'], id')
      <> (makeBucketId props [projectID], Obj_ID object) ->
      getObject ErrNotFound Obj decodeObject db' projectID' props' id'
      = getObject ErrNotFound Obj decodeObject db projectID' props' id').
Proof.
  intros db'. rewrite !isObjectInUse_stored, !getObject_stored.
  subst db'. unfold updateObject, Update, stored.
  destruct (db !! makeBucketId props [projectID]) as [b|] eqn:Eb; [|done].
  cbn [fst].
  destruct (bucket_data b !! Itoa (Obj_ID object)) as [old|] eqn:Eold;
    [|done].
  destruct (encodeObject object) as [err|str]; [done|]. cbn [fst].
  destruct (decide (makeBucketId props' [projectID']
                    = makeBucketId props [projectID])) as [E|E].
  - rewrite E, lookup_insert_eq, Eb. cbn.
    destruct (decide (id' = Obj_ID object)) as [->|Hid].
    + rewrite lookup_insert_eq, Eold. split; [reflexivity|congruence].
    + rewrite lookup_insert_ne; [done|].
      intros Hi. apply Hid. symmetry. by apply (inj pretty).
  - by rewrite lookup_insert_ne.
Qed.


Variable unmarshalInto : string -> Obj * option error.
Variable sortObjects : list Obj -> string -> bool -> list Obj * option error.

Lemma unmarshalObjects_loop_skips params rawData n objects err :
  0 < Offset params ->
  unmarshalObjects_loop Obj unmarshalInto params rawData 0 n objects err
  = inr (objects, err).
Proof.
  intros Hoff. induction rawData as [|[k v] rawData IH]; [done|].
  cbn [unmarshalObjects_loop]. by rewrite (proj2 (Z.ltb_lt _ _) Hoff).
Qed.

(** X20: with a positive offset [unmarshalObjects] decodes no entry at
    all: the slice is the one it was given, sorted when a sort field is
    named. *)
Theorem unmarshalObjects_positive_offset rawData params objects :
  0 < Offset params ->
  unmarshalObjects Obj unmarshalInto sortObjects rawData params objects
  = if decide (SortBy params <> "")
    then sortObjects objects (SortBy params) (SortInverted params)
    else (objects, None).
Proof.
  intros Hoff. unfold unmarshalObjects.
  by rewrite unmarshalObjects_loop_skips.
Qed.

Lemma unmarshalObjects_loop_spec params rawData n objects err :
  Offset params <= 0 ->
  exists vs rest,
    map snd rawData = vs ++ rest
    /\ Forall (fun v => snd (unmarshalInto v) <> None) vs
    /\ match
         unmarshalObjects_loop Obj unmarshalInto params rawData 0 n objects
           err
       with
       | inl (objects', err') =>
         objects' = objects ++ map (fun v => fst (unmarshalInto v)) vs
         /\ err' = None
         /\ exists v rest', rest = v :: rest' /\ snd (unmarshalInto v) = None
       | inr (objects', err') =>
         objects' = objects ++ map (fun v => fst (unmarshalInto v)) vs
         /\ match vs with
            | [] => err' = err /\ rawData = []
            | _ => err' <> None
            end
       end.
Proof.
  intros Hoff. revert n objects err.
  induction rawData as [|[k v] rawData IH]; intros n objects err.
  { exists [], []. cbn. by rewrite app_nil_r. }
  cbn [unmarshalObjects_loop].
  rewrite (proj2 (Z.ltb_ge _ _) Hoff).
  destruct (unmarshalInto v) as [obj [e|]] eqn:Ev.
  - destruct (Count params <? n + 1) eqn:Ecount.
    + exists [v], (map snd rawData). cbn. rewrite Ev. cbn.
      repeat split; try done. constructor; [by rewrite Ev|constructor].
    + destruct (IH (n + 1) (objects ++ [obj]) (Some e))
        as (vs & rest & Eraw & Hvs & Hres).
      exists (v :: vs), rest. cbn. rewrite Eraw. split; [done|].
      split; [constructor; [by rewrite Ev|done]|].
      destruct (unmarshalObjects_loop _ _ _ _ _ _ _ _) as [[o e']|[o e']];
        rewrite Ev; cbn; rewrite <- app_assoc in Hres; cbn in Hres.
      * done.
      * destruct Hres as [-> Herr]. split; [done|].
        destruct vs; [by destruct Herr as [-> _]|done].
  - exists [], (v :: map snd rawData). cbn. rewrite app_nil_r.
    repeat split; try done. exists v, (map snd rawData). by rewrite Ev.
Qed.

(** X21: with no positive offset and at least one entry,
    [unmarshalObjects] appends, in order, the values left by the leading
    entries that fail to decode; it returns no error only by stopping at
    the first entry that decodes, which is not appended. *)
Theorem unmarshalObjects_adds_failures rawData params objects :
  Offset params <= 0 -> rawData <> [] ->
  exists vs rest,
    map snd rawData = vs ++ rest
    /\ Forall (fun v => snd (unmarshalInto v) <> None) vs
    /\ fst (unmarshalObjects Obj unmarshalInto sortObjects rawData params
              objects)
       = objects ++ map (fun v => fst (unmarshalInto v)) vs
    /\ (snd (unmarshalObjects Obj unmarshalInto sortObjects rawData params
               objects) = None ->
        exists v rest', rest = v :: rest' /\ snd (unmarshalInto v) = None).
Proof.
  intros Hoff Hraw.
  destruct (unmarshalObjects_loop_spec params rawData 0 objects None Hoff)
    as (vs & rest & Eraw & Hvs & Hres).
  exists vs, rest. split; [done|]. split; [done|].
  unfold unmarshalObjects.
  destruct (unmarshalObjects_loop _ _ _ _ _ _ _ _) as [[o e]|[o e]].
  - destruct Hres as (-> & -> & Hv). by split.
  - destruct Hres as [-> Herr]. destruct vs as [|v vs].
    + by destruct Herr as [_ ->].
    + destruct e as [e|]; [|done]. by split.
Qed.

End StoreTheory.

End BoltTheory.

(** ** More of the scenario, run *)


Lemma inventoryOf_task_inj_witness :
  Task_ID (job_Task Scenario.job)
  = Task_ID (job_Task Scenario.brokenEnvironmentJob).
Proof.
  apply (inventoryOf_task_inj Scenario.config Scenario.job
           Scenario.brokenEnvironmentJob "/tmp/semaphore/inventory_42.yml").
  - reflexivity.
  - discriminate.
  - vm_compute. reflexivity.
  - vm_compute. reflexivity.
Defined.

Lemma Run_starts_app_witness :
  exists s1 args s2 env,
    prepareRun Scenario.config Scenario.quietWorld
      (entered (Scenario.start Scenario.job))
    = (Returned None, s1)
    /\ getPlaybookArgs Scenario.config RefJson.codec "admin" None s1
       = (Returned (args, None), s2)
    /\ getEnvironmentENV RefJson.codec (st_job s1) = inr env
    /\ exists s' logs,
         Run Scenario.config RefJson.codec Scenario.quietWorld "admin" None
           (Scenario.start Scenario.job)
         = (Returned
              (snd (App_Run Scenario.quietWorld (st_trace s2) args
                      (runEnvironment (st_job s1) env))), s')
         /\ Process (st_job s')
            = match
                fst (App_Run Scenario.quietWorld (st_trace s2) args
                       (runEnvironment (st_job s1) env))
              with
              | Some p => Some p
              | None => Process (st_job s1)
              end
         /\ st_trace s'
            = st_trace s2
              ++ EvAppRun args (runEnvironment (st_job s1) env)
                 :: EvDestroyKeys (sshKeyInstallation (st_job s1))
                      (becomeKeyInstallation (st_job s1))
                      (vaultFileInstallation (st_job s1))
                 :: logs
         /\ Forall (fun e => exists msg, e = EvLog msg) logs.
Proof.
  eexists _, _, _, _.
  split; [vm_compute; reflexivity|].
  split; [vm_compute; reflexivity|].
  split; [vm_compute; reflexivity|].
  apply (Run_starts_app Scenario.config RefJson.codec Scenario.quietWorld
           "admin" None (Scenario.start Scenario.job)).
  - reflexivity.
  - vm_compute. reflexivity.
  - vm_compute. reflexivity.
  - vm_compute. reflexivity.
Defined.

Lemma Run_build_error_witness :
  exists s1 args err s2 e,
    prepareRun Scenario.config Scenario.quietWorld
      (entered (Scenario.start Scenario.brokenEnvironmentJob))
    = (Returned None, s1)
    /\ getPlaybookArgs Scenario.config RefJson.codec "admin" None s1
       = (Returned (args, err), s2)
    /\ err = Some e
    /\ exists s' logs,
         Run Scenario.config RefJson.codec Scenario.quietWorld "admin" None
           (Scenario.start Scenario.brokenEnvironmentJob)
         = (Returned (Some e), s')
         /\ st_job s' = st_job s1
         /\ st_trace s'
            = st_trace s2
              ++ EvDestroyKeys (sshKeyInstallation (st_job s1))
                   (becomeKeyInstallation (st_job s1))
                   (vaultFileInstallation (st_job s1))
                 :: logs
         /\ Forall (fun e => exists msg, e = EvLog msg) logs.
Proof.
  eexists _, _, _, _, _.
  split; [vm_compute; reflexivity|].
  split; [vm_compute; reflexivity|].
  split; [reflexivity|].
  eapply (Run_build_error Scenario.config RefJson.codec Scenario.quietWorld
            "admin" None (Scenario.start Scenario.brokenEnvironmentJob)).
  - reflexivity.
  - vm_compute. reflexivity.
  - vm_compute. reflexivity.
  - left. reflexivity.
Defined.

Lemma prepareRun_failure_logged_witness :
  exists s',
    prepareRun Scenario.config Scenario.galaxyFails
      (Scenario.start Scenario.job)
    = (Returned (Some Scenario.galaxyError), s')
    /\ exists tr context,
         st_trace s' = tr ++ [EvLog (context +:+ Error Scenario.galaxyError)].
Proof.
  eexists. split; [vm_compute; reflexivity|].
  eapply (prepareRun_failure_logged Scenario.config Scenario.galaxyFails
            (Scenario.start Scenario.job) Scenario.galaxyError).
  vm_compute. reflexivity.
Defined.

Lemma getEnvironmentExtraVars_user_keys_witness :
  exists m td,
    getEnvironmentExtraVars RefJson.codec "admin" None Scenario.job
    = Returned (inr m)
    /\ (forall k, k <> "semaphore_vars" ->
          m !! k = ({["region" := JInt 3]} : gmap string JValue) !! k)
    /\ m !! "semaphore_vars"
       = Some (JObject {["task_details" := JObject td]})
    /\ td !! "id" = Some (JInt (Task_ID (job_Task Scenario.job)))
    /\ td !! "username" = Some (JString "admin")
    /\ dom m = {["semaphore_vars"]} ∪ dom ({["region" := JInt 3]}
                                            : gmap string JValue).
Proof.
  apply (getEnvironmentExtraVars_user_keys RefJson.codec "admin" None
           Scenario.job {["region" := JInt 3]}).
  right. split; [discriminate|]. vm_compute. reflexivity.
Defined.

Lemma getTerraformArgs_vars_witness :
  exists m,
    getEnvironmentExtraVars RefJson.codec "admin" None Scenario.job
    = Returned (inr m)
    /\ exists keys,
         getTerraformArgs RefJson.codec MoreScenario.rangeKeys "admin" None
           (Scenario.start Scenario.job)
         = (Returned
              ((if Task_DryRun (job_Task Scenario.job)
                then "plan" else "apply")
               :: (keys ≫= fun k => ["-var"; k]), None),
            Scenario.start Scenario.job)
         /\ keys ≡ₚ (map_to_list m).*1
         /\ "semaphore_vars" ∈ keys
         /\ NoDup keys.
Proof.
  eexists. split; [vm_compute; reflexivity|].
  apply (getTerraformArgs_vars RefJson.codec MoreScenario.rangeKeys "admin"
           None (Scenario.start Scenario.job)).
  - intros m. reflexivity.
  - vm_compute. reflexivity.
Defined.

Lemma getTerraformArgs_error_witness :
  exists msg,
    getTerraformArgs RefJson.codec MoreScenario.rangeKeys "admin" None
      (Scenario.start Scenario.brokenEnvironmentJob)
    = (Returned (["apply"], Some RefJson.syntaxError),
       mkRunState Scenario.brokenEnvironmentJob
         [EvLog (Error RefJson.syntaxError); EvLog msg]).
Proof.
  apply (getTerraformArgs_error RefJson.codec MoreScenario.rangeKeys "admin"
           None (Scenario.start Scenario.brokenEnvironmentJob)
           RefJson.syntaxError).
  vm_compute. reflexivity.
Defined.

Lemma makeBucketId_inj_witness : 1 = 1.
Proof.
  apply (BoltTheory.makeBucketId_inj MoreScenario.InventoryObject 1 1).
  reflexivity.
Defined.

Lemma deleteObject_deletes_inventory_witness :
  exists db',
    Bolt.deleteObject MoreScenario.ErrNotFound
      MoreScenario.ErrInvalidOperation MoreScenario.InventoryObject
      MoreScenario.store 1 MoreScenario.KeyObject 5
    = (db', None)
    /\ fst (Bolt.isObjectInUse db' 1 MoreScenario.InventoryObject 5) = false
    /\ (forall name,
          name <> Bolt.makeBucketId MoreScenario.InventoryObject [1] ->
          db' !! name = MoreScenario.store !! name).
Proof.
  apply (BoltTheory.deleteObject_deletes_inventory MoreScenario.ErrNotFound
           MoreScenario.ErrInvalidOperation MoreScenario.InventoryObject
           MoreScenario.store 1 MoreScenario.KeyObject 5).
  - vm_compute. reflexivity.
  - vm_compute. reflexivity.
Defined.

Lemma updateObject_getObject_witness :
  exists db',
    Bolt.updateObject MoreScenario.ErrNotFound MoreScenario.Obj
      MoreScenario.Obj_ID MoreScenario.encodeObject MoreScenario.store 1
      MoreScenario.KeyObject (6, "ops")
    = (db', None)
    /\ exists str,
         MoreScenario.encodeObject (6, "ops") = inr str
         /\ Bolt.getObject MoreScenario.ErrNotFound MoreScenario.Obj
              MoreScenario.decodeObject db' 1 MoreScenario.KeyObject
              (MoreScenario.Obj_ID (6, "ops"))
            = MoreScenario.decodeObject str
         /\ fst (Bolt.isObjectInUse MoreScenario.store 1
                   MoreScenario.KeyObject (MoreScenario.Obj_ID (6, "ops")))
            = true.
Proof.
  eexists. split; [vm_compute; reflexivity|].
  apply (BoltTheory.updateObject_getObject MoreScenario.ErrNotFound
           MoreScenario.Obj MoreScenario.Obj_ID MoreScenario.decodeObject
           MoreScenario.encodeObject MoreScenario.store 1
           MoreScenario.KeyObject (6, "ops")).
  vm_compute. reflexivity.
Defined.

Lemma unmarshalObjects_positive_offset_witness :
  Bolt.unmarshalObjects MoreScenario.Obj MoreScenario.unmarshalInto
    MoreScenario.sortObjects MoreScenario.entries
    (Bolt.mkRetrieveQueryParams 1 10 "" false) []
  = ([], None).
Proof.
  apply (BoltTheory.unmarshalObjects_positive_offset MoreScenario.Obj
           MoreScenario.unmarshalInto MoreScenario.sortObjects
           MoreScenario.entries (Bolt.mkRetrieveQueryParams 1 10 "" false) []).
  reflexivity.
Defined.

Lemma unmarshalObjects_adds_failures_witness :
  exists vs rest,
    map snd MoreScenario.entries = vs ++ rest
    /\ Forall (fun v => snd (MoreScenario.unmarshalInto v) <> None) vs
    /\ fst (Bolt.unmarshalObjects MoreScenario.Obj MoreScenario.unmarshalInto
              MoreScenario.sortObjects MoreScenario.entries
              (Bolt.mkRetrieveQueryParams 0 10 "" false) [])
       = [] ++ map (fun v => fst (MoreScenario.unmarshalInto v)) vs
    /\ (snd (Bolt.unmarshalObjects MoreScenario.Obj
               MoreScenario.unmarshalInto MoreScenario.sortObjects
               MoreScenario.entries
               (Bolt.mkRetrieveQueryParams 0 10 "" false) []) = None ->
        exists v rest',
          rest = v :: rest' /\ snd (MoreScenario.unmarshalInto v) = None).
Proof.
  apply (BoltTheory.unmarshalObjects_adds_failures MoreScenario.Obj
           MoreScenario.unmarshalInto MoreScenario.sortObjects
           MoreScenario.entries (Bolt.mkRetrieveQueryParams 0 10 "" false) []).
  - cbn. lia.
  - discriminate.
Defined.

Lemma Run_payload_panic_witness :
  exists s1,
    prepareRun Scenario.config Scenario.quietWorld
      (entered (Scenario.start Scenario.nullEnvironmentJob))
    = (Returned None, s1)
    /\ exists logs,
         Run Scenario.config RefJson.codec Scenario.quietWorld "admin" None
           (Scenario.start Scenario.nullEnvironmentJob)
         = (Panicked "assignment to entry in nil map",
            mkRunState (st_job s1)
              (st_trace s1
               ++ EvDestroyKeys (sshKeyInstallation (st_job s1))
                    (becomeKeyInstallation (st_job s1))
                    (vaultFileInstallation (st_job s1))
                  :: logs))
         /\ Forall (fun e => exists msg, e = EvLog msg) logs.
Proof.
  eexists. split; [vm_compute; reflexivity|].
  apply (Run_payload_panic Scenario.config RefJson.codec Scenario.quietWorld
           "admin" None (Scenario.start Scenario.nullEnvironmentJob)).
  - reflexivity.
  - vm_compute. reflexivity.
  - split; [intros name; vm_compute; discriminate|].
    split; [right; intros name; vm_compute; discriminate|].
    left. reflexivity.
  - split; [vm_compute; discriminate|]. vm_compute. reflexivity.
Defined.
